(** * CC3XX low-level random number driver (cc3xx_rng.c)

    A shallow embedding of the driver
    [platform/ext/target/arm/drivers/cc3xx/low_level_driver/src/cc3xx_rng.c]
    and the properties of its three entry points
    [cc3xx_lowlevel_rng_get_random], [cc3xx_lowlevel_rng_get_random_uint]
    and [cc3xx_lowlevel_rng_get_random_permutation].

    Conventions.
    - [uint32_t], [uint64_t], [uint8_t] and [size_t] values are integers of
      [Z]; every operation that can wrap is written with its reduction
      ([u32], [u64], [u8]).  The target is a 32-bit little-endian Arm core,
      so [size_t] is 32 bits wide and a word is stored lowest byte first.
    - The file-scope statics of the driver are the fields of [rng_state].
    - A C function that updates the statics or the peripheral is a function
      of the state monad [M]; a run ends with a value ([Ret]), or does not
      come back to its caller ([Halt]: the fatal-error hook halted, an
      [assert] failed, or the peripheral never answered).  A loop whose
      number of rounds depends on the state carries a fuel argument and
      [OutOfFuel] marks its exhaustion. *)

From Stdlib Require Import ZArith List Lia Bool.
From stdpp Require Import base list.
Import ListNotations.
Local Open Scope Z_scope.

(** ** Machine integers and byte views *)

Definition UINT32_MAX : Z := 0xFFFFFFFF.

Definition u8 (z : Z) : Z := z mod 2 ^ 8.
Definition u32 (z : Z) : Z := z mod 2 ^ 32.
Definition u64 (z : Z) : Z := z mod 2 ^ 64.

(** [size_t] on the 32-bit target. *)
Definition usize (z : Z) : Z := z mod 2 ^ 32.

(** The four bytes of a 32-bit word in memory order (little endian). *)
Definition word_bytes (w : Z) : list Z :=
  [ w mod 256; (w / 2 ^ 8) mod 256; (w / 2 ^ 16) mod 256; (w / 2 ^ 24) mod 256 ].

(** A [uint32_t] array seen through a [uint8_t *]. *)
Fixpoint bytes_of_words (ws : list Z) : list Z :=
  match ws with
  | [] => []
  | w :: ws' => word_bytes w ++ bytes_of_words ws'
  end.

(** Little-endian value of a run of bytes. *)
Fixpoint le_value (bs : list Z) : Z :=
  match bs with
  | [] => 0
  | b :: bs' => b + 256 * le_value bs'
  end.

(** [memcpy(dst + off, src, |src|)] on a destination held as a list. *)
Definition write_at (off : nat) (src dst : list Z) : list Z :=
  take off dst ++ src ++ drop (off + length src) dst.

(** Storing [ws] at the start of the word array [buf]; the array keeps its
    size. *)
Definition store_words (ws buf : list Z) : list Z :=
  take (length buf) (ws ++ drop (length ws) buf).

(** [__builtin_clz] on a 32-bit operand: the number of zero bits above the
    highest set bit, scanning down from bit 31. *)
Fixpoint clz_from (n : nat) (x : Z) : Z :=
  match n with
  | O => 0
  | S n' => if Z.testbit x (Z.of_nat n') then 0 else 1 + clz_from n' x
  end.

Definition builtin_clz (x : Z) : Z := clz_from 32 x.

(** ** Error codes and qualities *)

(** The codes of [cc3xx_error.h] the driver names, and any other code an
    adapter may hand back. *)
Inductive cc3xx_err_t : Type :=
| CC3XX_ERR_SUCCESS
| CC3XX_ERR_RNG_INVALID_RNG
| CC3XX_ERR_RNG_TOO_MANY_ATTEMPTS
| CC3XX_ERR_OTHER (code : Z).

Definition is_success (e : cc3xx_err_t) : bool :=
  match e with CC3XX_ERR_SUCCESS => true | _ => false end.

(** [enum cc3xx_rng_quality_t]; the last constructor stands for an
    enumerator value outside the two named ones, which the [default]
    branch of the [switch] receives. *)
Inductive cc3xx_rng_quality_t : Type :=
| CC3XX_RNG_CRYPTOGRAPHICALLY_SECURE
| CC3XX_RNG_FAST
| CC3XX_RNG_QUALITY_UNKNOWN.

Definition is_cryptographically_secure (q : cc3xx_rng_quality_t) : bool :=
  match q with CC3XX_RNG_CRYPTOGRAPHICALLY_SECURE => true | _ => false end.

(** ** Outcomes and the state monad *)

Inductive halt_reason : Type :=
| FatalErrorHalt      (* the fatal-error hook kept control *)
| AssertionFailed     (* an [assert] of the driver failed *)
| HardwareSilent.     (* a polled register never showed the awaited value *)

Inductive outcome (A S : Type) : Type :=
| Ret (a : A) (s : S)
| Halt (why : halt_reason) (s : S)
| OutOfFuel.

Arguments Ret {A S} a s.
Arguments Halt {A S} why s.
Arguments OutOfFuel {A S}.

Definition M (S A : Type) : Type := S -> outcome A S.

Definition ret {S A : Type} (a : A) : M S A := fun s => Ret a s.

Definition bind {S A B : Type} (m : M S A) (f : A -> M S B) : M S B :=
  fun s =>
    match m s with
    | Ret a s' => f a s'
    | Halt w s' => Halt w s'
    | OutOfFuel => OutOfFuel
    end.

Definition get {S : Type} : M S S := fun s => Ret s s.
Definition modify {S : Type} (f : S -> S) : M S unit := fun s => Ret tt (f s).
Definition halt {S A : Type} (w : halt_reason) : M S A := fun s => Halt w s.
Definition out_of_fuel {S A : Type} : M S A := fun _ => OutOfFuel.

Declare Scope rng_scope.
Delimit Scope rng_scope with rng.
Notation "x <- m ;; k" := (bind m (fun x => k))
  (at level 100, m at next level, right associativity) : rng_scope.
Notation "m ;;; k" := (bind m (fun _ => k))
  (at level 100, right associativity) : rng_scope.
Local Open Scope rng_scope.

(** [assert(c)]; with [NDEBUG] it expands to nothing. *)
Definition c_assert {S : Type} (ndebug c : bool) : M S unit :=
  if ndebug || c then ret tt else halt AssertionFailed.

(** ** The platform: peripheral adapter, fatal-error hook, build options

    With [CC3XX_CONFIG_RNG_EXTERNAL_TRNG] the three adapter functions come
    from outside the driver; without it they are the ones of the file
    ([Builtin] below).  Both are instances of this interface.  Its other
    members are what the driver takes from headers that are not part of the
    file: the attempt limit, the size of the entropy holding register, the
    fatal-error hook, and the two build switches. *)
Class Platform : Type := {
  plat : Type;
  (** [CC3XX_CONFIG_RNG_MAX_ATTEMPTS] *)
  CC3XX_CONFIG_RNG_MAX_ATTEMPTS : Z;
  (** [sizeof(P_CC3XX->rng.ehr_data) / sizeof(uint32_t)] *)
  EHR_DATA_WORDS : Z;
  trng_init : M plat cc3xx_err_t;
  trng_finish : M plat cc3xx_err_t;
  (** [trng_get_random(buf, word_count)]: the error code and the words
      stored at [buf[0]], [buf[1]], ... *)
  trng_get_random : Z -> M plat (cc3xx_err_t * list Z);
  (** [FATAL_ERR(err)]: reports; [Ret] when it hands control back. *)
  FATAL_ERR : cc3xx_err_t -> M plat unit;
  (** [NDEBUG]: [assert] expands to nothing. *)
  NDEBUG : bool;
  CC3XX_CONFIG_DPA_MITIGATIONS_ENABLE : bool
}.

(** ** Driver state *)

(** One buffered pool: the word array, the number of bytes already handed
    out, and (ghost) every byte its backing generator has stored in it
    since boot, in order. *)
Record pool : Type := {
  random_buf : list Z;
  used_idx : Z;
  produced : list Z
}.

Definition set_random_buf (b : list Z) (p : pool) : pool :=
  {| random_buf := b; used_idx := used_idx p; produced := produced p |}.
Definition set_used_idx (u : Z) (p : pool) : pool :=
  {| random_buf := random_buf p; used_idx := u; produced := produced p |}.

Record rng_state `{Platform} : Type := {
  hw : plat;
  (** [lfsr_seed_done] *)
  lfsr_seed_done : bool;
  (** [static uint64_t state[2]] of [xorshift_plus_128_lfsr] *)
  xorshift_state : Z * Z;
  (** [lfsr_buf], [lfsr_buf_used_idx] *)
  lfsr_pool : pool;
  (** [entropy_buf], [entropy_buf_used_idx] *)
  entropy_pool : pool;
  (** ghost: how often the seeding call of [xorshift_plus_128_lfsr] was
      made *)
  seed_draws : nat
}.

Section Driver.
Context `{P : Platform}.

Definition set_hw (h : plat) (s : rng_state) : rng_state :=
  {| hw := h; lfsr_seed_done := lfsr_seed_done s;
     xorshift_state := xorshift_state s; lfsr_pool := lfsr_pool s;
     entropy_pool := entropy_pool s; seed_draws := seed_draws s |}.
Definition set_lfsr_seed_done (b : bool) (s : rng_state) : rng_state :=
  {| hw := hw s; lfsr_seed_done := b;
     xorshift_state := xorshift_state s; lfsr_pool := lfsr_pool s;
     entropy_pool := entropy_pool s; seed_draws := seed_draws s |}.
Definition set_xorshift_state (x : Z * Z) (s : rng_state) : rng_state :=
  {| hw := hw s; lfsr_seed_done := lfsr_seed_done s;
     xorshift_state := x; lfsr_pool := lfsr_pool s;
     entropy_pool := entropy_pool s; seed_draws := seed_draws s |}.
Definition set_lfsr_pool (p : pool) (s : rng_state) : rng_state :=
  {| hw := hw s; lfsr_seed_done := lfsr_seed_done s;
     xorshift_state := xorshift_state s; lfsr_pool := p;
     entropy_pool := entropy_pool s; seed_draws := seed_draws s |}.
Definition set_entropy_pool (p : pool) (s : rng_state) : rng_state :=
  {| hw := hw s; lfsr_seed_done := lfsr_seed_done s;
     xorshift_state := xorshift_state s; lfsr_pool := lfsr_pool s;
     entropy_pool := p; seed_draws := seed_draws s |}.
Definition set_seed_draws (n : nat) (s : rng_state) : rng_state :=
  {| hw := hw s; lfsr_seed_done := lfsr_seed_done s;
     xorshift_state := xorshift_state s; lfsr_pool := lfsr_pool s;
     entropy_pool := entropy_pool s; seed_draws := n |}.

(** The statics as the program is loaded: both pools count as used up
    ([sizeof] of the array), nothing is seeded. *)
Definition boot_state (h : plat) : rng_state :=
  {| hw := h;
     lfsr_seed_done := false;
     xorshift_state := (0, 0);
     lfsr_pool := {| random_buf := [0; 0]; used_idx := 8; produced := [] |};
     entropy_pool :=
       {| random_buf := repeat 0 (Z.to_nat EHR_DATA_WORDS);
          used_idx := 4 * EHR_DATA_WORDS; produced := [] |};
     seed_draws := O |}.

(** A platform call made from the driver.  A platform primitive that does
    not complete is a silent peripheral. *)
Definition lift_plat {A : Type} (m : M plat A) : M rng_state A :=
  fun s =>
    match m (hw s) with
    | Ret a h => Ret a (set_hw h s)
    | Halt w h => Halt w (set_hw h s)
    | OutOfFuel => Halt HardwareSilent s
    end.

(** [round_up] *)
Definition round_up (num boundary : Z) : Z :=
  u32 (u32 (num + boundary - 1) - (u32 (num + boundary - 1) mod boundary)).

(** *** The pool a request is served from

    The [switch] of [cc3xx_lowlevel_rng_get_random] picks [random_buf],
    [used_idx], [max_buf_size] and [random_fn] together; [pool_sel] names
    the pair of statics picked. *)
Inductive pool_sel : Type := EntropyPool | LfsrPool.

Definition get_pool (sel : pool_sel) (s : rng_state) : pool :=
  match sel with EntropyPool => entropy_pool s | LfsrPool => lfsr_pool s end.

Definition set_pool (sel : pool_sel) (p : pool) (s : rng_state) : rng_state :=
  match sel with
  | EntropyPool => set_entropy_pool p s
  | LfsrPool => set_lfsr_pool p s
  end.

(** [sizeof(entropy_buf)], [sizeof(lfsr_buf)] *)
Definition max_buf_size (sel : pool_sel) : Z :=
  match sel with EntropyPool => 4 * EHR_DATA_WORDS | LfsrPool => 8 end.

(** One refill: [err = random_fn(random_buf, max_buf_size / sizeof(uint32_t))]
    and, on success, [*used_idx = 0].  The ghost stream grows by the
    bytes now in the pool. *)
Definition refill (sel : pool_sel) (random_fn : Z -> M rng_state (cc3xx_err_t * list Z))
  : M rng_state cc3xx_err_t :=
  r <- random_fn (max_buf_size sel / 4) ;;
  let '(err, ws) := r in
  s <- get ;;
  let p := get_pool sel s in
  let b := store_words ws (random_buf p) in
  if is_success err then
    modify (set_pool sel
              {| random_buf := b; used_idx := 0;
                 produced := produced p ++ bytes_of_words b |}) ;;;
    ret err
  else
    modify (set_pool sel (set_random_buf b p)) ;;;
    ret err.

(** The [while (length > 0)] loop.  [dst] is the caller's buffer, [off] how
    far [buf] has advanced in it; the result is [err] at the label [out]
    and the caller's buffer. *)
Fixpoint fill_loop (fuel : nat) (sel : pool_sel)
    (random_fn : Z -> M rng_state (cc3xx_err_t * list Z))
    (request_is_word_aligned : bool) (dst : list Z) (off len : Z)
  : M rng_state (cc3xx_err_t * list Z) :=
  if len <=? 0 then ret (CC3XX_ERR_SUCCESS, dst)
  else
    match fuel with
    | O => out_of_fuel
    | S fuel' =>
      s <- get ;;
      err <- (if used_idx (get_pool sel s) =? max_buf_size sel
              then refill sel random_fn
              else ret CC3XX_ERR_SUCCESS) ;;
      if negb (is_success err) then ret (err, dst)
      else
        s <- get ;;
        let p := get_pool sel s in
        let avail := usize (max_buf_size sel - used_idx p) in
        let copy_size := if avail <? len then avail else len in
        let src :=
          if request_is_word_aligned then
            bytes_of_words
              (take (Z.to_nat (copy_size / 4))
                    (drop (Z.to_nat (used_idx p / 4)) (random_buf p)))
          else
            take (Z.to_nat copy_size)
                 (drop (Z.to_nat (used_idx p)) (bytes_of_words (random_buf p))) in
        let dst' := write_at (Z.to_nat off) src dst in
        modify (set_pool sel (set_used_idx (usize (used_idx p + copy_size)) p)) ;;;
        fill_loop fuel' sel random_fn request_is_word_aligned dst'
                  (off + copy_size) (usize (len - copy_size))
    end.

(** The body of [cc3xx_lowlevel_rng_get_random] after the [switch].
    [buf_addr] is the address held by [buf], [dst] the [len] bytes it
    points to. *)
Definition get_random_from (sel : pool_sel)
    (random_fn : Z -> M rng_state (cc3xx_err_t * list Z))
    (quality : cc3xx_rng_quality_t)
    (buf_addr : Z) (dst : list Z) (len : Z)
  : M rng_state (cc3xx_err_t * list Z) :=
  let request_is_word_aligned :=
    (Z.land buf_addr 3 =? 0) && (Z.land len 3 =? 0) in
  (if request_is_word_aligned
   then modify (fun s => let p := get_pool sel s in
                         set_pool sel (set_used_idx (round_up (used_idx p) 4) p) s)
   else ret tt) ;;;
  s <- get ;;
  let rng_required := usize (max_buf_size sel - used_idx (get_pool sel s)) <? len in
  let bracket := rng_required && is_cryptographically_secure quality in
  err0 <- (if bracket then lift_plat trng_init else ret CC3XX_ERR_SUCCESS) ;;
  if negb (is_success err0) then ret (err0, dst)
  else
    r <- fill_loop (Z.to_nat len) sel random_fn
                   request_is_word_aligned dst 0 len ;;
    let '(err, dst') := r in
    if bracket then
      err' <- lift_plat trng_finish ;;
      ret (err', dst')
    else ret (err, dst').

(** *** The two backing generators and the entry points *)

(** [random_fn = trng_get_random] *)
Definition trng_random_fn (word_count : Z) : M rng_state (cc3xx_err_t * list Z) :=
  lift_plat (trng_get_random word_count).

(** [cc3xx_lowlevel_rng_get_random] in the case
    [CC3XX_RNG_CRYPTOGRAPHICALLY_SECURE] of its [switch]; it is also the
    call [xorshift_plus_128_lfsr] makes to seed itself. *)
Definition get_random_secure (buf_addr : Z) (dst : list Z) (len : Z)
  : M rng_state (cc3xx_err_t * list Z) :=
  get_random_from EntropyPool trng_random_fn
                  CC3XX_RNG_CRYPTOGRAPHICALLY_SECURE buf_addr dst len.

(** Memory image of [uint64_t state[2]], and its reading back. *)
Definition xorshift_state_bytes (x : Z * Z) : list Z :=
  bytes_of_words [fst x mod 2 ^ 32; fst x / 2 ^ 32; snd x mod 2 ^ 32; snd x / 2 ^ 32].
Definition xorshift_state_of_bytes (bs : list Z) : Z * Z :=
  (le_value (take 8 bs), le_value (take 8 (drop 8 bs))).

(** [xorshift_plus_128_lfsr].  [&state] is 8-byte aligned, so the seeding
    request is a word-aligned one (address 0 stands for it). *)
Definition xorshift_plus_128_lfsr : M rng_state Z :=
  s <- get ;;
  (if negb (lfsr_seed_done s) then
     modify (fun s => set_seed_draws (S (seed_draws s)) s) ;;;
     r <- get_random_secure 0 (xorshift_state_bytes (xorshift_state s)) 16 ;;
     modify (fun s => set_lfsr_seed_done true
                        (set_xorshift_state (xorshift_state_of_bytes (snd r)) s))
   else ret tt) ;;;
  s <- get ;;
  let temp0 := fst (xorshift_state s) in
  let temp1 := snd (xorshift_state s) in
  let temp0 := Z.lxor temp0 (u64 (Z.shiftl temp0 23)) in
  let temp0 := Z.lxor temp0 (Z.shiftr temp0 18) in
  let temp0 := Z.lxor temp0 (Z.lxor temp1 (Z.shiftr temp1 5)) in
  modify (set_xorshift_state (temp1, temp0)) ;;;
  ret (u64 (temp0 + temp1)).

(** [lfsr_get_random]: the 64-bit result of [xorshift_plus_128_lfsr] is
    stored over [buf[0]] (low half) and [buf[1]]. *)
Definition lfsr_get_random (word_count : Z) : M rng_state (cc3xx_err_t * list Z) :=
  c_assert NDEBUG (word_count =? 2) ;;;
  x <- xorshift_plus_128_lfsr ;;
  ret (CC3XX_ERR_SUCCESS, [x mod 2 ^ 32; x / 2 ^ 32]).

(** [cc3xx_lowlevel_rng_get_random(buf, length, quality)] *)
Definition cc3xx_lowlevel_rng_get_random
    (buf_addr : Z) (dst : list Z) (len : Z) (quality : cc3xx_rng_quality_t)
  : M rng_state (cc3xx_err_t * list Z) :=
  match quality with
  | CC3XX_RNG_CRYPTOGRAPHICALLY_SECURE => get_random_secure buf_addr dst len
  | CC3XX_RNG_FAST =>
      get_random_from LfsrPool lfsr_get_random CC3XX_RNG_FAST buf_addr dst len
  | CC3XX_RNG_QUALITY_UNKNOWN => ret (CC3XX_ERR_RNG_INVALID_RNG, dst)
  end.

(** The mask of [cc3xx_lowlevel_rng_get_random_uint]. *)
Definition uint_mask (bound : Z) : Z :=
  if Z.land bound (u32 (bound - 1)) =? 0
  then u32 (bound - 1)
  else Z.shiftr UINT32_MAX (builtin_clz bound).

(** The [do ... while (value >= bound)] loop.  [value] is the local of that
    name, [uint] what [*uint] holds; the result is the error code and
    [*uint] on return. *)
Fixpoint uint_loop (fuel : nat) (bound mask attempts value uint : Z)
    (quality : cc3xx_rng_quality_t) : M rng_state (cc3xx_err_t * Z) :=
  match fuel with
  | O => out_of_fuel
  | S fuel' =>
    r <- cc3xx_lowlevel_rng_get_random 0 (word_bytes value) 4 quality ;;
    let '(err, value_bytes) := r in
    if negb (is_success err) then ret (err, uint)
    else
      let value := Z.land (le_value value_bytes) mask in
      let attempts := u32 (attempts + 1) in
      if attempts >=? CC3XX_CONFIG_RNG_MAX_ATTEMPTS then
        lift_plat (FATAL_ERR CC3XX_ERR_RNG_TOO_MANY_ATTEMPTS) ;;;
        ret (CC3XX_ERR_RNG_TOO_MANY_ATTEMPTS, uint)
      else if value >=? bound then
        uint_loop fuel' bound mask attempts value uint quality
      else ret (CC3XX_ERR_SUCCESS, value)
  end.

(** [cc3xx_lowlevel_rng_get_random_uint(bound, uint, quality)].  The local
    [value] starts indeterminate (0 here); every successful draw stores all
    four of its bytes. *)
Definition cc3xx_lowlevel_rng_get_random_uint
    (bound uint : Z) (quality : cc3xx_rng_quality_t)
  : M rng_state (cc3xx_err_t * Z) :=
  c_assert NDEBUG (negb (bound =? 0)) ;;;
  uint_loop (S (Z.to_nat CC3XX_CONFIG_RNG_MAX_ATTEMPTS))
            bound (uint_mask bound) 0 0 uint quality.

(** The [for] loop of [fisher_yates_shuffle]. *)
Fixpoint fisher_yates_loop (fuel : nat) (idx swap_idx len : Z)
    (permutation_buf : list Z) (quality : cc3xx_rng_quality_t)
  : M rng_state (list Z) :=
  if idx <=? usize (len - 1) then
    match fuel with
    | O => out_of_fuel
    | S fuel' =>
      r <- cc3xx_lowlevel_rng_get_random_uint (usize (len - idx)) swap_idx quality ;;
      let '(err, swap_idx) := r in
      if negb (is_success err) then
        fisher_yates_loop fuel' (u32 (idx + 1)) swap_idx len permutation_buf quality
      else
        let swap_idx := u32 (swap_idx + idx) in
        let temp_elem := nth (Z.to_nat idx) permutation_buf 0 in
        let permutation_buf :=
          <[Z.to_nat idx := nth (Z.to_nat swap_idx) permutation_buf 0]> permutation_buf in
        let permutation_buf :=
          <[Z.to_nat swap_idx := temp_elem]> permutation_buf in
        fisher_yates_loop fuel' (u32 (idx + 1)) swap_idx len permutation_buf quality
    end
  else ret permutation_buf.

(** [fisher_yates_shuffle]; [swap_idx] starts indeterminate (0 here) and is
    read only after a successful draw has stored it. *)
Definition fisher_yates_shuffle (permutation_buf : list Z) (len : Z)
    (quality : cc3xx_rng_quality_t) : M rng_state (list Z) :=
  if len =? 0 then ret permutation_buf
  else fisher_yates_loop (Z.to_nat len) 0 0 len permutation_buf quality.

(** The initialising [for] loop of
    [cc3xx_lowlevel_rng_get_random_permutation]: [permutation_buf[idx] = idx]
    on [uint8_t] elements. *)
Fixpoint permutation_init_loop (fuel : nat) (idx len : Z)
    (permutation_buf : list Z) : M rng_state (list Z) :=
  if idx <? len then
    match fuel with
    | O => out_of_fuel
    | S fuel' =>
      permutation_init_loop fuel' (u32 (idx + 1)) len
                            (<[Z.to_nat idx := u8 idx]> permutation_buf)
    end
  else ret permutation_buf.

(** [cc3xx_lowlevel_rng_get_random_permutation(permutation_buf, len, quality)] *)
Definition cc3xx_lowlevel_rng_get_random_permutation
    (permutation_buf : list Z) (len : Z) (quality : cc3xx_rng_quality_t)
  : M rng_state (list Z) :=
  permutation_buf <- permutation_init_loop (Z.to_nat len) 0 len permutation_buf ;;
  if CC3XX_CONFIG_DPA_MITIGATIONS_ENABLE
  then fisher_yates_shuffle permutation_buf len quality
  else ret permutation_buf.

End Driver.

(** ** The adapter of the file (no [CC3XX_CONFIG_RNG_EXTERNAL_TRNG])

    The peripheral is seen through its register accesses.  Stores are
    logged.  A register the driver polls is given by the values its
    successive loads return ([sample_cnt1_reads], [rng_isr_reads]); when
    such a list runs out the peripheral stays silent.  Each read-out of
    [ehr_data] restarts the generator, so the holding register is given by
    its successive contents. *)
Module Builtin.

Inductive rng_reg : Type :=
| RNG_CLK_ENABLE | RNG_SW_RESET | SAMPLE_CNT1 | RND_SOURCE_ENABLE
| RNG_ICR | RNG_IMR | TRNG_CONFIG | TRNG_DEBUG_CONTROL | RST_BITS_COUNTER.

Record cc3xx_hw : Type := {
  reg_writes : list (rng_reg * Z);
  sample_cnt1_reads : list Z;
  rng_isr_reads : list Z;
  ehr_data_reads : list (list Z);
  (** what [FATAL_ERR] was called with, oldest first *)
  fatal_errors : list cc3xx_err_t
}.

Definition reg_write (r : rng_reg) (v : Z) : M cc3xx_hw unit :=
  modify (fun h =>
    {| reg_writes := reg_writes h ++ [(r, v)];
       sample_cnt1_reads := sample_cnt1_reads h;
       rng_isr_reads := rng_isr_reads h;
       ehr_data_reads := ehr_data_reads h;
       fatal_errors := fatal_errors h |}).

Definition set_sample_cnt1_reads (l : list Z) : M cc3xx_hw unit :=
  modify (fun h =>
    {| reg_writes := reg_writes h;
       sample_cnt1_reads := l;
       rng_isr_reads := rng_isr_reads h;
       ehr_data_reads := ehr_data_reads h;
       fatal_errors := fatal_errors h |}).

Definition set_rng_isr_reads (l : list Z) : M cc3xx_hw unit :=
  modify (fun h =>
    {| reg_writes := reg_writes h;
       sample_cnt1_reads := sample_cnt1_reads h;
       rng_isr_reads := l;
       ehr_data_reads := ehr_data_reads h;
       fatal_errors := fatal_errors h |}).

Definition set_ehr_data_reads (l : list (list Z)) : M cc3xx_hw unit :=
  modify (fun h =>
    {| reg_writes := reg_writes h;
       sample_cnt1_reads := sample_cnt1_reads h;
       rng_isr_reads := rng_isr_reads h;
       ehr_data_reads := l;
       fatal_errors := fatal_errors h |}).

(** The fatal-error hook on this platform: the error is recorded, and
    control comes back unless the build halts on fatal errors. *)
Definition fatal_err (halt_on_fatal : bool) (e : cc3xx_err_t) : M cc3xx_hw unit :=
  modify (fun h =>
    {| reg_writes := reg_writes h;
       sample_cnt1_reads := sample_cnt1_reads h;
       rng_isr_reads := rng_isr_reads h;
       ehr_data_reads := ehr_data_reads h;
       fatal_errors := fatal_errors h ++ [e] |}) ;;;
  if halt_on_fatal then halt FatalErrorHalt else ret tt.

Section Adapter.
Variable CC3XX_CONFIG_RNG_SUBSAMPLING_RATE : Z.
Variable CC3XX_CONFIG_RNG_RING_OSCILLATOR_ID : Z.
Variable max_attempts : Z.   (* CC3XX_CONFIG_RNG_MAX_ATTEMPTS *)
Variable ehr_words : Z.      (* sizeof(ehr_data) / sizeof(uint32_t) *)
Variable halt_on_fatal : bool.
Variable ndebug : bool.

(** The [do ... while (sample_cnt1 != RATE)] loop of [trng_init]; [reads]
    are the loads of [sample_cnt1] still to come. *)
Fixpoint trng_init_loop (reads : list Z) : M cc3xx_hw unit :=
  reg_write RNG_CLK_ENABLE 1 ;;;
  reg_write SAMPLE_CNT1 CC3XX_CONFIG_RNG_SUBSAMPLING_RATE ;;;
  match reads with
  | [] => set_sample_cnt1_reads [] ;;; halt HardwareSilent
  | r :: reads' =>
    if r =? CC3XX_CONFIG_RNG_SUBSAMPLING_RATE
    then set_sample_cnt1_reads reads'
    else trng_init_loop reads'
  end.

Definition trng_init : M cc3xx_hw cc3xx_err_t :=
  reg_write RNG_CLK_ENABLE 1 ;;;
  reg_write RNG_SW_RESET 1 ;;;
  h <- get ;;
  trng_init_loop (sample_cnt1_reads h) ;;;
  reg_write RND_SOURCE_ENABLE 0 ;;;
  reg_write RNG_ICR 0x3F ;;;
  reg_write RNG_IMR 0x3E ;;;
  reg_write TRNG_CONFIG (Z.lor CC3XX_CONFIG_RNG_RING_OSCILLATOR_ID (Z.shiftl 1 2)) ;;;
  reg_write TRNG_DEBUG_CONTROL 0 ;;;
  reg_write RND_SOURCE_ENABLE 1 ;;;
  ret CC3XX_ERR_SUCCESS.

Definition trng_finish : M cc3xx_hw cc3xx_err_t :=
  reg_write RND_SOURCE_ENABLE 0 ;;;
  reg_write RNG_CLK_ENABLE 0 ;;;
  ret CC3XX_ERR_SUCCESS.

(** The polling [do ... while] loop of [trng_get_random].  Each round loads
    [rng_isr] twice: for the test of the failure bits and for the loop
    condition.  The result is [attempt_count] at the exit. *)
Fixpoint trng_poll_loop (reads : list Z) (attempt_count : Z) : M cc3xx_hw Z :=
  match reads with
  | isr_test :: isr_cond :: reads' =>
    attempt_count <-
      (if negb (Z.land isr_test 0xE =? 0) then
         reg_write RST_BITS_COUNTER 1 ;;;
         reg_write RNG_ICR 0x3F ;;;
         ret (u32 (attempt_count + 1))
       else ret attempt_count) ;;
    if (Z.land isr_cond 1 =? 0) && (attempt_count <? max_attempts)
    then trng_poll_loop reads' attempt_count
    else set_rng_isr_reads reads' ;;; ret attempt_count
  | _ => set_rng_isr_reads [] ;;; halt HardwareSilent
  end.

(** [trng_get_random(buf, word_count)] *)
Definition trng_get_random (word_count : Z) : M cc3xx_hw (cc3xx_err_t * list Z) :=
  c_assert ndebug (word_count =? ehr_words) ;;;
  h <- get ;;
  attempt_count <- trng_poll_loop (rng_isr_reads h) 0 ;;
  if attempt_count =? max_attempts then
    trng_finish ;;;
    fatal_err halt_on_fatal CC3XX_ERR_RNG_TOO_MANY_ATTEMPTS ;;;
    ret (CC3XX_ERR_RNG_TOO_MANY_ATTEMPTS, [])
  else
    reg_write RST_BITS_COUNTER 1 ;;;
    reg_write RNG_ICR 0xFFFFFFFF ;;;
    h <- get ;;
    let ehr_data := hd [] (ehr_data_reads h) in
    set_ehr_data_reads (tl (ehr_data_reads h)) ;;;
    ret (CC3XX_ERR_SUCCESS,
         map (fun idx => nth idx ehr_data 0) (seq 0 (Z.to_nat ehr_words))).

End Adapter.

End Builtin.

(** The driver built without [CC3XX_CONFIG_RNG_EXTERNAL_TRNG]. *)
Definition builtin_platform
    (subsampling_rate ring_oscillator_id max_attempts ehr_words : Z)
    (halt_on_fatal ndebug dpa_mitigations : bool) : Platform :=
  {| plat := Builtin.cc3xx_hw;
     CC3XX_CONFIG_RNG_MAX_ATTEMPTS := max_attempts;
     EHR_DATA_WORDS := ehr_words;
     trng_init := Builtin.trng_init subsampling_rate ring_oscillator_id;
     trng_finish := Builtin.trng_finish;
     trng_get_random :=
       Builtin.trng_get_random max_attempts ehr_words halt_on_fatal ndebug;
     FATAL_ERR := Builtin.fatal_err halt_on_fatal;
     NDEBUG := ndebug;
     CC3XX_CONFIG_DPA_MITIGATIONS_ENABLE := dpa_mitigations |}.

(** * Specification vocabulary *)

(** The state a run ends in, and the value it returns. *)
Definition final_state {A S : Type} (o : outcome A S) (s0 : S) : S :=
  match o with Ret _ s | Halt _ s => s | OutOfFuel => s0 end.

Definition returns {A S : Type} (o : outcome A S) (a : A) : Prop :=
  match o with Ret a' _ => a' = a | _ => False end.


(** Weakest preconditions for the monad.

    [wp m Q J s]: from [s] the computation [m] does not exhaust its fuel;
    if it returns [a] in state [s'] then [Q a s'], and if it halts in
    state [s'] then [J s']. *)
Definition wp {S A : Type} (m : M S A) (Q : A -> S -> Prop) (J : S -> Prop)
    (s : S) : Prop :=
  match m s with
  | Ret a s' => Q a s'
  | Halt _ s' => J s'
  | OutOfFuel => False
  end.

Section Vocabulary.
Context `{P : Platform}.

(** The configuration values fit their C types. *)
Definition platform_ok : Prop :=
  0 < EHR_DATA_WORDS /\ 4 * EHR_DATA_WORDS < 2 ^ 32 /\
  CC3XX_CONFIG_RNG_MAX_ATTEMPTS < 2 ^ 32.

(** The bytes of a pool not handed out yet. *)
Definition unconsumed (p : pool) : list Z :=
  drop (Z.to_nat (used_idx p)) (bytes_of_words (random_buf p)).

(** The array has its declared size and the consumed offset lies in it. *)
Definition pool_shape (sel : pool_sel) (p : pool) : Prop :=
  4 * Z.of_nat (length (random_buf p)) = max_buf_size sel /\
  0 <= used_idx p <= max_buf_size sel.

(** What [fill_loop] has stored from offset [off] of the caller's buffer:
    the run [out] of the stream that follows [pre]. *)
Definition served (sel : pool_sel) (pre dst : list Z) (off len : Z)
    (r : cc3xx_err_t * list Z) (s' : rng_state) : Prop :=
  exists out,
    produced (get_pool sel s') = pre ++ out ++ unconsumed (get_pool sel s') /\
    snd r = take (Z.to_nat off) dst ++ out ++ drop (Z.to_nat off + length out) dst /\
    Z.of_nat (length out) <= len /\
    (fst r = CC3XX_ERR_SUCCESS -> Z.of_nat (length out) = len).

(** The bytes still buffered are the end of the stream produced so far. *)
Definition pool_inv (sel : pool_sel) (s : rng_state) : Prop :=
  pool_shape sel (get_pool sel s) /\
  exists pre, produced (get_pool sel s) = pre ++ unconsumed (get_pool sel s).

(** The seeding call has been made exactly when [lfsr_seed_done] is set. *)
Definition seed_inv (s : rng_state) : Prop :=
  seed_draws s = if lfsr_seed_done s then 1%nat else 0%nat.

Definition seeded_at_most_once (s : rng_state) : Prop :=
  (seed_draws s <= 1)%nat.

(** The invariant of the statics. *)
Definition state_ok (s : rng_state) : Prop :=
  pool_inv EntropyPool s /\ pool_inv LfsrPool s /\ seed_inv s.

(** The backing generator of the secure pool never reports a failure. *)
Definition trng_reliable : Prop :=
  forall wc h r h', trng_get_random wc h = Ret r h' -> fst r = CC3XX_ERR_SUCCESS.

(** The pool the [switch] picks for a quality. *)
Definition pool_of_quality (q : cc3xx_rng_quality_t) : pool_sel :=
  match q with CC3XX_RNG_FAST => LfsrPool | _ => EntropyPool end.

(** One round of [fill_loop] with the recursive call abstracted ([k]),
    split at the refill; [fill_loop_S] unfolds the loop into them. *)
Definition copy_round (k : list Z -> Z -> Z -> M rng_state (cc3xx_err_t * list Z))
    (sel : pool_sel) (request_is_word_aligned : bool) (dst : list Z) (off len : Z)
  : M rng_state (cc3xx_err_t * list Z) :=
  s <- get ;;
  let p := get_pool sel s in
  let avail := usize (max_buf_size sel - used_idx p) in
  let copy_size := if avail <? len then avail else len in
  let src :=
    if request_is_word_aligned then
      bytes_of_words
        (take (Z.to_nat (copy_size / 4))
              (drop (Z.to_nat (used_idx p / 4)) (random_buf p)))
    else
      take (Z.to_nat copy_size)
           (drop (Z.to_nat (used_idx p)) (bytes_of_words (random_buf p))) in
  let dst' := write_at (Z.to_nat off) src dst in
  modify (set_pool sel (set_used_idx (usize (used_idx p + copy_size)) p)) ;;;
  k dst' (off + copy_size) (usize (len - copy_size)).

Definition fill_round (k : list Z -> Z -> Z -> M rng_state (cc3xx_err_t * list Z))
    (sel : pool_sel) (random_fn : Z -> M rng_state (cc3xx_err_t * list Z))
    (request_is_word_aligned : bool) (dst : list Z) (off len : Z)
  : M rng_state (cc3xx_err_t * list Z) :=
  s <- get ;;
  err <- (if used_idx (get_pool sel s) =? max_buf_size sel
          then refill sel random_fn
          else ret CC3XX_ERR_SUCCESS) ;;
  if negb (is_success err) then ret (err, dst)
  else copy_round k sel request_is_word_aligned dst off len.

(** What a call of [cc3xx_lowlevel_rng_get_random] hands out, against the
    stream of its pool: [pre] was handed out or discarded before the call;
    the call discards [disc] (at most three bytes, and only for a
    word-aligned request), then stores [out] at the start of the caller's
    buffer; the whole request when [full]. *)
Definition dispensed (sel : pool_sel) (pre dst : list Z) (buf_addr len : Z)
    (full : Prop) (r : cc3xx_err_t * list Z) (s' : rng_state) : Prop :=
  exists disc out,
    produced (get_pool sel s') = pre ++ disc ++ out ++ unconsumed (get_pool sel s') /\
    snd r = out ++ drop (length out) dst /\
    Z.of_nat (length out) <= len /\
    (length disc <= 3)%nat /\
    ((Z.land buf_addr 3 =? 0) && (Z.land len 3 =? 0) = false -> disc = []) /\
    (full -> Z.of_nat (length out) = len).

(** [rejected_draws bound mask q n value s value' s']: from [s], with the
    local [value] holding [value], the next [n] draws of the sampling loop
    all succeed as draws and are all rejected ([value >= bound]); they
    leave the state [s'] and [value'] in the local. *)
Inductive rejected_draws (bound mask : Z) (q : cc3xx_rng_quality_t)
  : nat -> Z -> rng_state -> Z -> rng_state -> Prop :=
| rejected_none value s : rejected_draws bound mask q O value s value s
| rejected_more n value s value_bytes s1 value' s' :
    cc3xx_lowlevel_rng_get_random 0 (word_bytes value) 4 q s
    = Ret (CC3XX_ERR_SUCCESS, value_bytes) s1 ->
    bound <= Z.land (le_value value_bytes) mask ->
    rejected_draws bound mask q n (Z.land (le_value value_bytes) mask) s1 value' s' ->
    rejected_draws bound mask q (S n) value s value' s'.

(** The elements [i] and [j] of [l] exchanged. *)
Definition exchange (i j : nat) (l : list Z) : list Z :=
  <[j := nth i l 0]> (<[i := nth j l 0]> l).

(** The sequence [0, 1, ..., len - 1]. *)
Definition identity_sequence (len : nat) : list Z := map Z.of_nat (seq 0 len).

(** What the initialising loop stores: [0, 1, ...] in [uint8_t] elements. *)
Definition identity_bytes (len : nat) : list Z :=
  map (fun i => u8 (Z.of_nat i)) (seq 0 len).

(** The shuffle in the words of the specification: for each index [i] of
    [indices] in turn, draw [swap_index_offset] below [len - i] and
    exchange the elements at [i] and [i + swap_index_offset]; after a
    failed draw leave the position and go on with the next index. *)
Fixpoint fisher_yates_spec (indices : list nat) (len : nat) (l : list Z)
    (quality : cc3xx_rng_quality_t) : M rng_state (list Z) :=
  match indices with
  | [] => ret l
  | i :: indices' =>
    r <- cc3xx_lowlevel_rng_get_random_uint (Z.of_nat (len - i)) 0 quality ;;
    let '(err, swap_index_offset) := r in
    if is_success err
    then fisher_yates_spec indices' len
           (exchange i (i + Z.to_nat swap_index_offset) l) quality
    else fisher_yates_spec indices' len l quality
  end.

(** A call of one of the three entry points. *)
Inductive rng_call : Type :=
| GetRandom (buf_addr : Z) (dst : list Z) (len : Z) (quality : cc3xx_rng_quality_t)
| GetRandomUint (bound uint : Z) (quality : cc3xx_rng_quality_t)
| GetRandomPermutation (permutation_buf : list Z) (len : Z)
                       (quality : cc3xx_rng_quality_t).

Definition run_call (c : rng_call) : M rng_state unit :=
  match c with
  | GetRandom buf_addr dst len quality =>
      cc3xx_lowlevel_rng_get_random buf_addr dst len quality ;;; ret tt
  | GetRandomUint bound uint quality =>
      cc3xx_lowlevel_rng_get_random_uint bound uint quality ;;; ret tt
  | GetRandomPermutation permutation_buf len quality =>
      cc3xx_lowlevel_rng_get_random_permutation permutation_buf len quality ;;; ret tt
  end.

(** A sequence of calls, one after the other on the same statics. *)
Fixpoint run_calls (cs : list rng_call) : M rng_state unit :=
  match cs with
  | [] => ret tt
  | c :: cs' => run_call c ;;; run_calls cs'
  end.

(** Lengths are [size_t] values and the caller's buffer holds the request. *)
Definition valid_call (c : rng_call) : Prop :=
  match c with
  | GetRandom _ dst len _ => 0 <= len < 2 ^ 32 /\ len <= Z.of_nat (length dst)
  | GetRandomUint _ _ _ => True
  | GetRandomPermutation _ len _ => 0 <= len < 2 ^ 32
  end.

(** The call with a zero bound is turned down before it touches the pools
    or the peripheral: it ends with an error or a failed assertion, in the
    state it started from. *)
Definition zero_bound_rejected (uint : Z) (q : cc3xx_rng_quality_t)
    (s : rng_state) : Prop :=
  match cc3xx_lowlevel_rng_get_random_uint 0 uint q s with
  | Ret (err, _) s' => err <> CC3XX_ERR_SUCCESS /\ s' = s
  | Halt AssertionFailed s' => s' = s
  | _ => False
  end.

End Vocabulary.

(** *** Polling traces of the adapter of the file *)






(** * Sample configurations

    The driver with the adapter of the file, sixteen attempts, a holding
    register of six words, and two traces of the peripheral: one on which
    every poll shows valid data, one on which every poll shows a failed
    health test. *)
Definition sample_platform (halt_on_fatal ndebug dpa_mitigations : bool) : Platform :=
  builtin_platform 0x1337 0 16 6 halt_on_fatal ndebug dpa_mitigations.

Definition healthy_hw : Builtin.cc3xx_hw :=
  {| Builtin.reg_writes := [];
     Builtin.sample_cnt1_reads := [0xFFFF; 0x1337; 0x1337; 0x1337];
     Builtin.rng_isr_reads := [0; 0; 0; 1; 1; 1; 1; 1];
     Builtin.ehr_data_reads :=
       [ [0x03020100; 0x07060504; 0x0B0A0908; 0x0F0E0D0C; 0x13121110; 0x17161514];
         [0x1B1A1918; 0x1F1E1D1C; 0x23222120; 0x27262524; 0x2B2A2928; 0x2F2E2D2C];
         [0x33323130; 0x37363534; 0x3B3A3938; 0x3F3E3D3C; 0x43424140; 0x47464544] ];
     Builtin.fatal_errors := [] |}.

Definition failing_hw : Builtin.cc3xx_hw :=
  {| Builtin.reg_writes := [];
     Builtin.sample_cnt1_reads := [0x1337];
     Builtin.rng_isr_reads := concat (repeat [0x2; 0x0] 16);
     Builtin.ehr_data_reads := [];
     Builtin.fatal_errors := [] |}.


Definition sample_boot (halt_on_fatal ndebug dpa_mitigations : bool)
    (h : Builtin.cc3xx_hw)
  : @rng_state (sample_platform halt_on_fatal ndebug dpa_mitigations) :=
  @boot_state (sample_platform halt_on_fatal ndebug dpa_mitigations) h.


(** A mocked platform: the backing generator hands out the words [n],
    [n + 1], ... and never fails; its state is the next word. *)
Definition mock_platform : Platform :=
  {| plat := Z;
     CC3XX_CONFIG_RNG_MAX_ATTEMPTS := 16;
     EHR_DATA_WORDS := 6;
     trng_init := ret CC3XX_ERR_SUCCESS;
     trng_finish := ret CC3XX_ERR_SUCCESS;
     trng_get_random := fun word_count n =>
       Ret (CC3XX_ERR_SUCCESS,
            map (fun i => n + Z.of_nat i) (seq 0 (Z.to_nat word_count)))
           (n + word_count);
     FATAL_ERR := fun _ => ret tt;
     NDEBUG := false;
     CC3XX_CONFIG_DPA_MITIGATIONS_ENABLE := true |}.

Definition mock_boot : @rng_state mock_platform := @boot_state mock_platform 0.





(** A mocked platform whose backing generator hands out all-ones words,
    with three attempts. *)
Definition stuck_platform : Platform :=
  {| plat := unit;
     CC3XX_CONFIG_RNG_MAX_ATTEMPTS := 3;
     EHR_DATA_WORDS := 6;
     trng_init := ret CC3XX_ERR_SUCCESS;
     trng_finish := ret CC3XX_ERR_SUCCESS;
     trng_get_random := fun word_count =>
       ret (CC3XX_ERR_SUCCESS, repeat 0xFFFFFFFF (Z.to_nat word_count));
     FATAL_ERR := fun _ => ret tt;
     NDEBUG := false;
     CC3XX_CONFIG_DPA_MITIGATIONS_ENABLE := false |}.

Definition stuck_boot : @rng_state stuck_platform := @boot_state stuck_platform tt.

(** The state after one more draw of a secure word on [stuck_platform]. *)
Definition stuck_draw (value : Z) (s : @rng_state stuck_platform)
  : outcome (cc3xx_err_t * list Z) (@rng_state stuck_platform) :=
  cc3xx_lowlevel_rng_get_random (P := stuck_platform)
    0 (word_bytes value) 4 CC3XX_RNG_CRYPTOGRAPHICALLY_SECURE s.

Definition stuck_after_1 : @rng_state stuck_platform :=
  final_state (stuck_draw 0 stuck_boot) stuck_boot.
Definition stuck_after_2 : @rng_state stuck_platform :=
  final_state (stuck_draw 15 stuck_after_1) stuck_boot.
Definition stuck_after_3 : @rng_state stuck_platform :=
  final_state (stuck_draw 15 stuck_after_2) stuck_boot.

(** * Properties *)

(** ** Byte views *)

Lemma length_word_bytes (w : Z) : length (word_bytes w) = 4%nat.
Proof. reflexivity. Qed.

Lemma length_bytes_of_words (ws : list Z) :
  length (bytes_of_words ws) = (4 * length ws)%nat.
Proof. induction ws as [|w ws IH]; simpl; lia. Qed.

Lemma bytes_of_words_app (a b : list Z) :
  bytes_of_words (a ++ b) = bytes_of_words a ++ bytes_of_words b.
Proof.
  induction a as [|w a IH]; [reflexivity|].
  cbn [bytes_of_words app]. rewrite IH. now rewrite <- !app_assoc.
Qed.

Lemma bytes_of_words_drop (k : nat) (ws : list Z) :
  drop (4 * k) (bytes_of_words ws) = bytes_of_words (drop k ws).
Proof.
  revert ws. induction k as [|k IH]; intros ws; [reflexivity|].
  destruct ws as [|w ws]; [now rewrite !drop_nil|].
  replace (4 * S k)%nat with (4 + 4 * k)%nat by lia.
  cbn [bytes_of_words]. rewrite <- drop_drop.
  change (drop 4 (word_bytes w ++ bytes_of_words ws)) with (bytes_of_words ws).
  apply IH.
Qed.

Lemma bytes_of_words_take (k : nat) (ws : list Z) :
  take (4 * k) (bytes_of_words ws) = bytes_of_words (take k ws).
Proof.
  revert ws. induction k as [|k IH]; intros ws; [reflexivity|].
  destruct ws as [|w ws]; [reflexivity|].
  replace (4 * S k)%nat with (S (S (S (S (4 * k)))))%nat by lia.
  cbn [bytes_of_words take word_bytes app]. now rewrite <- IH.
Qed.

Lemma length_store_words (ws buf : list Z) :
  length (store_words ws buf) = length buf.
Proof.
  unfold store_words. rewrite length_take, length_app, length_drop. lia.
Qed.


Lemma take_write_at (off : nat) (src dst : list Z) :
  (off <= length dst)%nat ->
  take (off + length src) (write_at off src dst) = take off dst ++ src.
Proof.
  intros Hoff. unfold write_at. rewrite app_assoc.
  rewrite take_app_le by (rewrite length_app, length_take; lia).
  apply take_ge. rewrite length_app, length_take. lia.
Qed.

Lemma drop_write_at (off k : nat) (src dst : list Z) :
  (off <= length dst)%nat ->
  drop (off + length src + k) (write_at off src dst)
  = drop (off + length src + k) dst.
Proof.
  intros Hoff. unfold write_at. rewrite app_assoc.
  rewrite drop_app_ge by (rewrite length_app, length_take; lia).
  rewrite length_app, length_take, drop_drop. f_equal. lia.
Qed.

Lemma length_write_at (off : nat) (src dst : list Z) :
  (off + length src <= length dst)%nat ->
  length (write_at off src dst) = length dst.
Proof.
  intros H. unfold write_at.
  rewrite !length_app, length_take, length_drop. lia.
Qed.

(** ** Rules of [wp] *)

Lemma wp_ret {S A : Type} (a : A) (Q : A -> S -> Prop) J s :
  Q a s -> wp (ret a) Q J s.
Proof. exact (fun H => H). Qed.

Lemma wp_bind {S A B : Type} (m : M S A) (f : A -> M S B)
    (Q : B -> S -> Prop) J s :
  wp m (fun a s' => wp (f a) Q J s') J s -> wp (bind m f) Q J s.
Proof. unfold wp, bind. destruct (m s); auto. Qed.

Lemma wp_get {S : Type} (Q : S -> S -> Prop) J s : Q s s -> wp get Q J s.
Proof. exact (fun H => H). Qed.

Lemma wp_modify {S : Type} (f : S -> S) (Q : unit -> S -> Prop) J s :
  Q tt (f s) -> wp (modify f) Q J s.
Proof. exact (fun H => H). Qed.

Lemma wp_halt {S A : Type} w (Q : A -> S -> Prop) (J : S -> Prop) s :
  J s -> wp (halt w) Q J s.
Proof. exact (fun H => H). Qed.

Lemma wp_mono {S A : Type} (m : M S A) (Q Q' : A -> S -> Prop)
    (J J' : S -> Prop) s :
  wp m Q J s ->
  (forall a s', Q a s' -> Q' a s') -> (forall s', J s' -> J' s') ->
  wp m Q' J' s.
Proof. unfold wp. destruct (m s); auto. Qed.

Lemma wp_c_assert {S : Type} (ndebug c : bool) (Q : unit -> S -> Prop) J s :
  Q tt s -> J s -> wp (c_assert ndebug c) Q J s.
Proof. unfold c_assert. destruct (ndebug || c); auto. Qed.


Lemma wp_halt_inv {S A : Type} (m : M S A) (Q : A -> S -> Prop) J s w s' :
  wp m Q J s -> m s = Halt w s' -> J s'.
Proof. unfold wp. intros H E. now rewrite E in H. Qed.

Lemma wp_fuel {S A : Type} (m : M S A) (Q : A -> S -> Prop) J s :
  wp m Q J s -> m s <> OutOfFuel.
Proof. unfold wp. intros H E. now rewrite E in H. Qed.
(** ** The buffered pools

    Invariants of the pools and of the seeding flag, carried through every
    function of the driver. *)

Section Pools.
Context `{P : Platform}.
Hypothesis HP : platform_ok.

Lemma max_buf_size_bounds sel :
  0 < max_buf_size sel < 2 ^ 32 /\ max_buf_size sel mod 4 = 0.
Proof.
  destruct HP as (H1 & H2 & _). destruct sel; cbn [max_buf_size].
  - split; [lia|]. rewrite Z.mul_comm. apply Z_mod_mult.
  - split; [lia|reflexivity].
Qed.

Lemma get_set_pool sel p s : get_pool sel (set_pool sel p s) = p.
Proof. now destruct sel. Qed.

Lemma set_set_pool sel p q s : set_pool sel p (set_pool sel q s) = set_pool sel p s.
Proof. now destruct sel. Qed.

Lemma word_copy_eq (buf : list Z) (u cs : Z) :
  0 <= u -> 0 <= cs -> u mod 4 = 0 -> cs mod 4 = 0 ->
  bytes_of_words (take (Z.to_nat (cs / 4)) (drop (Z.to_nat (u / 4)) buf))
  = take (Z.to_nat cs) (drop (Z.to_nat u) (bytes_of_words buf)).
Proof.
  intros Hu Hc Hu4 Hc4.
  rewrite <- bytes_of_words_take, <- bytes_of_words_drop.
  pose proof (Z_div_mod_eq_full u 4). pose proof (Z_div_mod_eq_full cs 4).
  f_equal; [|f_equal]; lia.
Qed.

Lemma round_up_4 (u m : Z) :
  0 <= u <= m -> m < 2 ^ 32 -> m mod 4 = 0 ->
  u <= round_up u 4 <= m /\ round_up u 4 mod 4 = 0 /\ round_up u 4 - u <= 3.
Proof.
  intros Hu Hm Hm4. unfold round_up, u32.
  pose proof (Z_div_mod_eq_full m 4).
  pose proof (Z_div_mod_eq_full (u + 3) 4).
  pose proof (Z.mod_pos_bound (u + 3) 4 ltac:(lia)).
  replace (u + 4 - 1) with (u + 3) by lia.
  rewrite (Z.mod_small (u + 3)) by lia.
  rewrite (Z.mod_small (u + 3 - (u + 3) mod 4)) by lia.
  replace (u + 3 - (u + 3) mod 4) with (4 * ((u + 3) / 4)) by lia.
  repeat split; try lia.
  rewrite Z.mul_comm. apply Z_mod_mult.
Qed.

Lemma fill_loop_S fuel sel random_fn aligned dst off len :
  fill_loop (S fuel) sel random_fn aligned dst off len
  = if len <=? 0 then ret (CC3XX_ERR_SUCCESS, dst)
    else fill_round (fill_loop fuel sel random_fn aligned)
                    sel random_fn aligned dst off len.
Proof. reflexivity. Qed.

Lemma refill_wp sel random_fn (I J : rng_state -> Prop) (R : Prop) pre s :
  (forall p s, I s -> I (set_pool sel p s)) ->
  (forall wc s, I s ->
     wp (random_fn wc)
        (fun r s' => I s' /\ get_pool sel s' = get_pool sel s /\
                     (R -> fst r = CC3XX_ERR_SUCCESS)) J s) ->
  I s -> pool_shape sel (get_pool sel s) ->
  used_idx (get_pool sel s) = max_buf_size sel ->
  produced (get_pool sel s) = pre ++ unconsumed (get_pool sel s) ->
  wp (refill sel random_fn)
     (fun err s' =>
        I s' /\ pool_shape sel (get_pool sel s') /\
        produced (get_pool sel s') = pre ++ unconsumed (get_pool sel s') /\
        used_idx (get_pool sel s') =
          (if is_success err then 0 else max_buf_size sel) /\
        (R -> err = CC3XX_ERR_SUCCESS)) J s.
Proof.
  intros HIset Hfn HI [Hlen Hrange] Hused Hprod.
  unfold refill. apply wp_bind.
  eapply wp_mono; [apply Hfn, HI| |auto].
  intros [err ws] s1 (HI1 & Hpool & HR). cbv beta iota. cbn [fst] in HR.
  apply wp_bind, wp_get.
  assert (Hnil : unconsumed (get_pool sel s) = []).
  { unfold unconsumed. apply drop_ge.
    rewrite length_bytes_of_words. lia. }
  rewrite Hnil, app_nil_r in Hprod.
  pose proof (max_buf_size_bounds sel) as [Hmax _].
  rewrite Hpool.
  destruct (is_success err) eqn:E; apply wp_bind, wp_modify, wp_ret;
    rewrite get_set_pool, E; (split; [now apply HIset|]).
  - cbn [random_buf used_idx produced]. unfold pool_shape, unconsumed.
    cbn [random_buf used_idx produced].
    rewrite length_store_words, Hprod. repeat split; auto; try lia.
  - unfold pool_shape, unconsumed. cbn [set_random_buf random_buf used_idx produced].
    rewrite length_store_words. repeat split; auto; try lia.
    rewrite Hprod, drop_ge, app_nil_r; [reflexivity|].
    rewrite length_bytes_of_words, length_store_words. lia.
Qed.


Lemma copy_round_wp k sel aligned dst off len s
    (Q : cc3xx_err_t * list Z -> rng_state -> Prop) J :
  pool_shape sel (get_pool sel s) ->
  used_idx (get_pool sel s) < max_buf_size sel ->
  0 < len < 2 ^ 32 ->
  (aligned = true -> used_idx (get_pool sel s) mod 4 = 0 /\ len mod 4 = 0) ->
  (forall cs src,
     0 < cs <= len -> cs <= max_buf_size sel - used_idx (get_pool sel s) ->
     src = take (Z.to_nat cs) (unconsumed (get_pool sel s)) ->
     length src = Z.to_nat cs ->
     (aligned = true -> cs mod 4 = 0) ->
     wp (k (write_at (Z.to_nat off) src dst) (off + cs) (len - cs)) Q J
        (set_pool sel (set_used_idx (used_idx (get_pool sel s) + cs)
                                    (get_pool sel s)) s)) ->
  wp (copy_round k sel aligned dst off len) Q J s.
Proof.
  intros [Hlen Hrange] Hlt Hl Hal Hk.
  pose proof (max_buf_size_bounds sel) as [Hmax Hmax4].
  unfold copy_round. apply wp_bind, wp_get. cbv zeta.
  set (p := get_pool sel s) in *.
  set (u := used_idx p) in *.
  unfold usize.
  rewrite (Z.mod_small (max_buf_size sel - u)) by lia.
  set (cs := if max_buf_size sel - u <? len then max_buf_size sel - u else len).
  assert (Hcs : 0 < cs <= len /\ cs <= max_buf_size sel - u).
  { subst cs. destruct (Z.ltb_spec (max_buf_size sel - u) len); lia. }
  assert (Hcs4 : aligned = true -> cs mod 4 = 0).
  { intros Ha. destruct (Hal Ha) as [Hu4 Hl4]. subst cs.
    destruct (max_buf_size sel - u <? len); [|assumption].
    rewrite Zminus_mod, Hmax4, Hu4. reflexivity. }
  rewrite (Z.mod_small (u + cs)), (Z.mod_small (len - cs)) by lia.
  apply wp_bind, wp_modify.
  assert (Hsrc : (if aligned
                  then bytes_of_words (take (Z.to_nat (cs / 4))
                                            (drop (Z.to_nat (u / 4)) (random_buf p)))
                  else take (Z.to_nat cs)
                            (drop (Z.to_nat u) (bytes_of_words (random_buf p))))
                 = take (Z.to_nat cs) (unconsumed p)).
  { unfold unconsumed. fold u. destruct aligned; [|reflexivity].
    destruct (Hal eq_refl). apply word_copy_eq; auto; lia. }
  rewrite Hsrc. apply Hk; auto; try lia.
  rewrite length_take. unfold unconsumed. fold u.
  rewrite length_drop, length_bytes_of_words. lia.
Qed.

Lemma served_none sel pre dst off (r : cc3xx_err_t * list Z) len s :
  produced (get_pool sel s) = pre ++ unconsumed (get_pool sel s) ->
  snd r = dst -> 0 <= len -> (fst r = CC3XX_ERR_SUCCESS -> len = 0) ->
  served sel pre dst off len r s.
Proof.
  intros Hprod Hdst Hlen Hs. exists []. cbn [app length].
  rewrite Nat.add_0_r, take_drop. repeat split; auto; try lia.
  intros H. rewrite (Hs H). reflexivity.
Qed.

Lemma fill_loop_wp sel random_fn (I J : rng_state -> Prop) (R : Prop) :
  (forall p s, I s -> I (set_pool sel p s)) ->
  (forall wc s, I s ->
     wp (random_fn wc)
        (fun r s' => I s' /\ get_pool sel s' = get_pool sel s /\
                     (R -> fst r = CC3XX_ERR_SUCCESS)) J s) ->
  forall fuel aligned dst off len s pre,
    I s -> pool_shape sel (get_pool sel s) ->
    produced (get_pool sel s) = pre ++ unconsumed (get_pool sel s) ->
    0 <= len < 2 ^ 32 -> (Z.to_nat len <= fuel)%nat ->
    0 <= off -> off + len <= Z.of_nat (length dst) ->
    (aligned = true -> used_idx (get_pool sel s) mod 4 = 0 /\ len mod 4 = 0) ->
    wp (fill_loop fuel sel random_fn aligned dst off len)
       (fun r s' => I s' /\ pool_shape sel (get_pool sel s') /\
                    served sel pre dst off len r s' /\
                    (R -> fst r = CC3XX_ERR_SUCCESS)) J s.
Proof.
  intros HIset Hfn.
  assert (Hzero : forall dst off len s pre,
             I s -> pool_shape sel (get_pool sel s) ->
             produced (get_pool sel s) = pre ++ unconsumed (get_pool sel s) ->
             0 <= len -> (len <=? 0) = true ->
             wp (ret (CC3XX_ERR_SUCCESS, dst))
                (fun r s' => I s' /\ pool_shape sel (get_pool sel s') /\
                             served sel pre dst off len r s' /\
                             (R -> fst r = CC3XX_ERR_SUCCESS)) J s).
  { intros dst off len s pre HI Hsh Hprod Hlen E. apply wp_ret.
    split; [auto|split; [auto|split; [|auto]]].
    apply served_none; auto. intros _. lia. }
  induction fuel as [|fuel IH];
    intros aligned dst off len s pre HI Hsh Hprod Hlen Hfuel Hoff Hfit Hal.
  - cbn [fill_loop]. destruct (len <=? 0) eqn:E; [apply Hzero; auto; lia|lia].
  - rewrite fill_loop_S. destruct (len <=? 0) eqn:E; [apply Hzero; auto; lia|].
    apply Z.leb_gt in E.
    pose proof (max_buf_size_bounds sel) as [Hmax Hmax4].
    assert (Hcopy : forall s2,
               I s2 -> pool_shape sel (get_pool sel s2) ->
               produced (get_pool sel s2) = pre ++ unconsumed (get_pool sel s2) ->
               used_idx (get_pool sel s2) < max_buf_size sel ->
               (aligned = true -> used_idx (get_pool sel s2) mod 4 = 0) ->
               wp (copy_round (fill_loop fuel sel random_fn aligned)
                              sel aligned dst off len)
                  (fun r s' => I s' /\ pool_shape sel (get_pool sel s') /\
                               served sel pre dst off len r s' /\
                               (R -> fst r = CC3XX_ERR_SUCCESS)) J s2).
    { intros s2 HI2 Hsh2 Hprod2 Hlt2 Hal2.
      apply copy_round_wp; auto; [lia|intros Ha; split; [auto|apply Hal, Ha]|].
      intros cs src Hcs Hcs' Hsrc Hsrclen Hcs4.
      destruct Hsh2 as [Hlen2 Hrange2].
      eapply wp_mono;
        [apply (IH aligned _ _ _ _ (pre ++ src)); auto; try lia| |auto].
      + rewrite get_set_pool. split; cbn [set_used_idx random_buf used_idx]; lia.
      + rewrite get_set_pool. cbn [set_used_idx produced].
        rewrite Hprod2, <- app_assoc. f_equal. subst src.
        unfold unconsumed. cbn [set_used_idx random_buf used_idx].
        rewrite <- (take_drop (Z.to_nat cs)
                      (drop (Z.to_nat (used_idx (get_pool sel s2))) _)) at 1.
        f_equal. rewrite drop_drop. f_equal. lia.
      + rewrite length_write_at by lia. lia.
      + rewrite get_set_pool. cbn [set_used_idx used_idx]. intros Ha.
        destruct (Hal Ha) as [_ Hl4].
        split; [rewrite Zplus_mod, (Hal2 Ha), (Hcs4 Ha)
               |rewrite Zminus_mod, Hl4, (Hcs4 Ha)]; reflexivity.
      + intros r s' (HI' & Hsh' & (out & Hp' & Hr' & Hle' & Hok') & HR').
        split; [auto|split; [auto|split; [|auto]]]. exists (src ++ out).
        rewrite length_app.
        replace (Z.to_nat (off + cs)) with (Z.to_nat off + length src)%nat in Hr'
          by lia.
        rewrite take_write_at, drop_write_at in Hr' by lia.
        repeat split.
        * rewrite Hp', <- !app_assoc. reflexivity.
        * rewrite Hr', <- !app_assoc, Nat.add_assoc. reflexivity.
        * lia.
        * intros Hs. specialize (Hok' Hs). lia. }
    unfold fill_round. apply wp_bind, wp_get, wp_bind.
    destruct (used_idx (get_pool sel s) =? max_buf_size sel) eqn:Eu.
    + apply Z.eqb_eq in Eu.
      eapply wp_mono; [apply (refill_wp sel random_fn I J R pre); auto| |auto].
      intros err s2 (HI2 & Hsh2 & Hprod2 & Hu2 & HR2).
      destruct (is_success err) eqn:Es; cbn [negb].
      * apply Hcopy; auto; try lia. rewrite Hu2. reflexivity.
      * apply wp_ret. split; [auto|split; [auto|split; [|auto]]].
        apply served_none; auto; [lia|].
        cbn [fst]. intros ->. discriminate.
    + apply Z.eqb_neq in Eu. apply wp_ret. cbn [is_success negb].
      apply Hcopy; auto; [destruct Hsh; lia|apply Hal].
Qed.


Lemma get_pool_set_hw sel h s : get_pool sel (set_hw h s) = get_pool sel s.
Proof. now destruct sel. Qed.

Lemma wp_lift_plat {A : Type} (m : M plat A) (Q : A -> rng_state -> Prop) J s :
  (forall a h, m (hw s) = Ret a h -> Q a (set_hw h s)) ->
  (forall h, J (set_hw h s)) -> J s ->
  wp (lift_plat m) Q J s.
Proof.
  intros HQ HJ HJs. unfold wp, lift_plat. destruct (m (hw s)); auto.
Qed.

Lemma land_3_mod (z : Z) : 0 <= z -> (Z.land z 3 =? 0) = true -> z mod 4 = 0.
Proof.
  intros Hz H. apply Z.eqb_eq in H.
  change 3 with (Z.ones 2) in H. rewrite Z.land_ones in H by lia. exact H.
Qed.

Lemma align_wp sel (aligned : bool) (I J : rng_state -> Prop) pre s :
  (forall p s, I s -> I (set_pool sel p s)) ->
  I s -> pool_shape sel (get_pool sel s) ->
  produced (get_pool sel s) = pre ++ unconsumed (get_pool sel s) ->
  wp (if aligned
      then modify (fun s => let p := get_pool sel s in
                            set_pool sel (set_used_idx (round_up (used_idx p) 4) p) s)
      else ret tt)
     (fun _ s' =>
        I s' /\ pool_shape sel (get_pool sel s') /\
        (aligned = true -> used_idx (get_pool sel s') mod 4 = 0) /\
        exists disc,
          produced (get_pool sel s') = (pre ++ disc) ++ unconsumed (get_pool sel s') /\
          (length disc <= 3)%nat /\ (aligned = false -> disc = [])) J s.
Proof.
  intros HIset HI [Hlen Hrange] Hprod.
  pose proof (max_buf_size_bounds sel) as [Hmax Hmax4].
  destruct aligned.
  - apply wp_modify. cbv zeta. rewrite get_set_pool.
    set (p := get_pool sel s) in *.
    destruct (round_up_4 (used_idx p) (max_buf_size sel)) as (Hr1 & Hr2 & Hr3);
      [lia..|].
    split; [now apply HIset|]. split; [split; cbn; lia|]. split; [auto|].
    exists (take (Z.to_nat (round_up (used_idx p) 4 - used_idx p)) (unconsumed p)).
    split; [|split; [rewrite length_take; lia|discriminate]].
    cbn [set_used_idx produced]. rewrite Hprod, <- app_assoc. f_equal.
    rewrite <- (take_drop (Z.to_nat (round_up (used_idx p) 4 - used_idx p))
                  (unconsumed p)) at 1.
    f_equal. unfold unconsumed. cbn [set_used_idx random_buf used_idx].
    rewrite drop_drop. f_equal. lia.
  - apply wp_ret. split; [auto|]. split; [split; auto|]. split; [discriminate|].
    exists []. rewrite app_nil_r. cbn [length]. repeat split; auto; lia.
Qed.

Lemma get_random_from_wp sel random_fn quality (I J : rng_state -> Prop) (R : Prop) :
  (forall p s, I s -> I (set_pool sel p s)) ->
  (forall h s, I s -> I (set_hw h s)) ->
  (forall s, I s -> J s) ->
  (forall wc s, I s ->
     wp (random_fn wc)
        (fun r s' => I s' /\ get_pool sel s' = get_pool sel s /\
                     (R -> fst r = CC3XX_ERR_SUCCESS)) J s) ->
  forall buf_addr dst len s pre,
    I s -> pool_shape sel (get_pool sel s) ->
    produced (get_pool sel s) = pre ++ unconsumed (get_pool sel s) ->
    0 <= len < 2 ^ 32 -> len <= Z.of_nat (length dst) ->
    wp (get_random_from sel random_fn quality buf_addr dst len)
       (fun r s' => I s' /\ pool_shape sel (get_pool sel s') /\
                    dispensed sel pre dst buf_addr len
                              (R /\ fst r = CC3XX_ERR_SUCCESS) r s') J s.
Proof.
  intros HIset HIhw HIJ Hfn buf_addr dst len s pre HI Hsh Hprod Hlen Hfit.
  unfold get_random_from. cbv zeta.
  set (aligned := (Z.land buf_addr 3 =? 0) && (Z.land len 3 =? 0)).
  apply wp_bind.
  eapply wp_mono; [apply (align_wp sel aligned I J pre); auto| |auto].
  intros _ sa (HIa & Hsha & Hala & disc & Hproda & Hdisc & Hdisc0).
  apply wp_bind, wp_get.
  set (bracket := (usize (max_buf_size sel - used_idx (get_pool sel sa)) <? len)
                  && is_cryptographically_secure quality).
  clearbody bracket.
  assert (Hlen4 : aligned = true -> len mod 4 = 0).
  { unfold aligned. intros Ha. apply andb_prop in Ha as [_ Ha].
    apply land_3_mod; [lia|exact Ha]. }
  assert (Htail : forall s2,
    I s2 -> get_pool sel s2 = get_pool sel sa ->
    wp (r <- fill_loop (Z.to_nat len) sel random_fn aligned dst 0 len ;;
        let '(err, dst') := r in
        if bracket
        then err' <- lift_plat trng_finish ;; ret (err', dst')
        else ret (err, dst'))
       (fun r s' => I s' /\ pool_shape sel (get_pool sel s') /\
                    dispensed sel pre dst buf_addr len
                              (R /\ fst r = CC3XX_ERR_SUCCESS) r s') J s2).
  { intros s2 HI2 Hpool2. apply wp_bind.
    eapply wp_mono;
      [apply (fill_loop_wp sel random_fn I J R HIset Hfn _ aligned dst 0 len s2
                           (pre ++ disc)); rewrite ?Hpool2; auto; try lia
      | |auto].
    intros [err dst'] s3 (HI3 & Hsh3 & (out & Hp3 & Hr3 & Hle3 & Hok3) & HR3).
    cbn [fst snd] in *.
    assert (Hdisp : forall e s4, get_pool sel s4 = get_pool sel s3 ->
               (R /\ e = CC3XX_ERR_SUCCESS -> err = CC3XX_ERR_SUCCESS) ->
               dispensed sel pre dst buf_addr len (R /\ e = CC3XX_ERR_SUCCESS)
                         (e, dst') s4).
    { intros e s4 Hp4 He. exists disc, out. rewrite Hp4. cbn [fst snd].
      rewrite Hp3, <- app_assoc. repeat split; auto. }
    destruct bracket.
    - apply wp_bind, wp_lift_plat; [|intros h; apply HIJ, HIhw, HI3|apply HIJ, HI3].
      intros e h _. apply wp_ret. rewrite get_pool_set_hw.
      split; [apply HIhw, HI3|split; [auto|]].
      apply Hdisp; [apply get_pool_set_hw|]. intros [HR _]. auto.
    - apply wp_ret. split; [auto|split; [auto|]].
      apply Hdisp; [reflexivity|]. intros [_ He]. exact He. }
  apply wp_bind. destruct bracket.
  - apply wp_lift_plat; [|intros h; apply HIJ, HIhw, HIa|apply HIJ, HIa].
    intros e0 h _. destruct (is_success e0) eqn:E0; cbn [negb].
    + apply Htail; [apply HIhw, HIa|apply get_pool_set_hw].
    + apply wp_ret. rewrite get_pool_set_hw.
      split; [apply HIhw, HIa|split; [auto|]].
      exists disc, []. rewrite get_pool_set_hw. cbn [fst snd app length].
      rewrite drop_0, Hproda, <- app_assoc. repeat split; auto; try lia.
      intros [_ ->]. discriminate.
  - apply wp_ret. cbn [is_success negb]. apply Htail; auto.
Qed.


Lemma seed_inv_at_most_once s : seed_inv s -> seeded_at_most_once s.
Proof.
  unfold seed_inv, seeded_at_most_once. destruct (lfsr_seed_done s); lia.
Qed.

Lemma dispensed_pool_inv sel pre dst buf_addr len full r s :
  pool_shape sel (get_pool sel s) ->
  dispensed sel pre dst buf_addr len full r s -> pool_inv sel s.
Proof.
  intros Hsh (disc & out & Hp & _). split; [exact Hsh|].
  exists (pre ++ disc ++ out). rewrite Hp, <- !app_assoc. reflexivity.
Qed.

Lemma get_random_secure_wp (I J : rng_state -> Prop) :
  (forall p s, I s -> I (set_entropy_pool p s)) ->
  (forall h s, I s -> I (set_hw h s)) ->
  (forall s, I s -> J s) ->
  forall buf_addr dst len s pre,
    I s -> pool_shape EntropyPool (entropy_pool s) ->
    produced (entropy_pool s) = pre ++ unconsumed (entropy_pool s) ->
    0 <= len < 2 ^ 32 -> len <= Z.of_nat (length dst) ->
    wp (get_random_secure buf_addr dst len)
       (fun r s' => I s' /\ pool_shape EntropyPool (entropy_pool s') /\
                    dispensed EntropyPool pre dst buf_addr len
                      (trng_reliable /\ fst r = CC3XX_ERR_SUCCESS) r s') J s.
Proof.
  intros HIset HIhw HIJ buf_addr dst len s pre HI Hsh Hprod Hlen Hfit.
  unfold get_random_secure.
  apply (get_random_from_wp EntropyPool trng_random_fn
           CC3XX_RNG_CRYPTOGRAPHICALLY_SECURE I J trng_reliable); auto.
  intros wc s0 HI0. unfold trng_random_fn.
  apply wp_lift_plat; [|intros h; apply HIJ, HIhw, HI0|apply HIJ, HI0].
  intros r h Hr. split; [apply HIhw, HI0|]. split; [reflexivity|].
  intros Hrel. apply (Hrel _ _ _ _ Hr).
Qed.

Lemma length_xorshift_state_bytes x : length (xorshift_state_bytes x) = 16%nat.
Proof. reflexivity. Qed.

Lemma xorshift_wp s :
  pool_inv EntropyPool s -> seed_inv s ->
  wp xorshift_plus_128_lfsr
     (fun _ s' => pool_inv EntropyPool s' /\ seed_inv s' /\
                  lfsr_pool s' = lfsr_pool s) seeded_at_most_once s.
Proof.
  intros [Hsh [pre Hprod]] Hseed.
  unfold xorshift_plus_128_lfsr. apply wp_bind, wp_get, wp_bind.
  assert (Hrest : forall s1,
            pool_inv EntropyPool s1 -> seed_inv s1 -> lfsr_pool s1 = lfsr_pool s ->
            wp (s <- get ;;
                let temp0 := fst (xorshift_state s) in
                let temp1 := snd (xorshift_state s) in
                let temp0 := Z.lxor temp0 (u64 (Z.shiftl temp0 23)) in
                let temp0 := Z.lxor temp0 (Z.shiftr temp0 18) in
                let temp0 := Z.lxor temp0 (Z.lxor temp1 (Z.shiftr temp1 5)) in
                modify (set_xorshift_state (temp1, temp0)) ;;;
                ret (u64 (temp0 + temp1)))
               (fun _ s' => pool_inv EntropyPool s' /\ seed_inv s' /\
                            lfsr_pool s' = lfsr_pool s) seeded_at_most_once s1).
  { intros s1 Hp1 Hs1 Hl1. apply wp_bind, wp_get. cbv zeta.
    apply wp_bind, wp_modify, wp_ret. auto. }
  destruct (lfsr_seed_done s) eqn:Edone; cbn [negb].
  - apply wp_ret. apply Hrest; auto. split; eauto.
  - apply wp_bind, wp_modify, wp_bind.
    unfold seed_inv in Hseed. rewrite Edone in Hseed.
    eapply wp_mono;
      [apply (get_random_secure_wp
                (fun s' => lfsr_pool s' = lfsr_pool s /\ seed_draws s' = 1%nat
                           /\ lfsr_seed_done s' = false)
                seeded_at_most_once) with (pre := pre);
       cbn; auto; try lia
      | |auto].
    + intros s0 (_ & H1 & _). unfold seeded_at_most_once. lia.
    + intros r s1 ((Hl1 & Hd1 & Hf1) & Hsh1 & disc & out & Hp1 & _).
      apply wp_modify. apply Hrest.
      * split; [exact Hsh1|]. exists (pre ++ disc ++ out).
        cbn [get_pool] in Hp1.
        cbn [get_pool set_lfsr_seed_done set_xorshift_state entropy_pool].
        rewrite Hp1, <- !app_assoc. reflexivity.
      * unfold seed_inv. cbn. exact Hd1.
      * cbn. exact Hl1.
Qed.

Lemma lfsr_get_random_wp wc s :
  pool_inv EntropyPool s -> seed_inv s ->
  wp (lfsr_get_random wc)
     (fun r s' => (pool_inv EntropyPool s' /\ seed_inv s') /\
                  get_pool LfsrPool s' = get_pool LfsrPool s /\
                  (True -> fst r = CC3XX_ERR_SUCCESS)) seeded_at_most_once s.
Proof.
  intros Hp Hs. unfold lfsr_get_random.
  apply wp_bind, wp_c_assert; [|now apply seed_inv_at_most_once].
  apply wp_bind. eapply wp_mono; [apply xorshift_wp; auto| |auto].
  intros x s' (Hp' & Hs' & Hl'). apply wp_ret. auto.
Qed.

(** Every call of [cc3xx_lowlevel_rng_get_random] keeps the driver state
    well formed, does not exhaust its fuel, and hands out what follows
    [pre] in the stream of its pool. *)
Lemma get_random_wp buf_addr dst len quality s pre :
  state_ok s ->
  produced (get_pool (pool_of_quality quality) s)
  = pre ++ unconsumed (get_pool (pool_of_quality quality) s) ->
  0 <= len < 2 ^ 32 -> len <= Z.of_nat (length dst) ->
  wp (cc3xx_lowlevel_rng_get_random buf_addr dst len quality)
     (fun r s' => state_ok s' /\
                  dispensed (pool_of_quality quality) pre dst buf_addr len
                    (trng_reliable /\ fst r = CC3XX_ERR_SUCCESS) r s')
     seeded_at_most_once s.
Proof.
  intros (He & Hl & Hs) Hprod Hlen Hfit.
  destruct quality; cbn [cc3xx_lowlevel_rng_get_random pool_of_quality] in *.
  - eapply wp_mono;
      [apply (get_random_secure_wp
                (fun s' => pool_inv LfsrPool s' /\ seed_inv s')
                seeded_at_most_once) with (pre := pre);
       auto; try apply He
      | |auto].
    + intros s0 [_ H]. now apply seed_inv_at_most_once.
    + intros r s' ((Hl' & Hs') & Hsh' & Hd). split; [|exact Hd].
      split; [|split; auto]. eapply dispensed_pool_inv; eauto.
  - eapply wp_mono;
      [apply (get_random_from_wp LfsrPool lfsr_get_random CC3XX_RNG_FAST
                (fun s' => pool_inv EntropyPool s' /\ seed_inv s')
                seeded_at_most_once True) with (pre := pre);
       auto; try apply Hl
      | |auto].
    + intros s0 [_ H]. now apply seed_inv_at_most_once.
    + intros wc s0 [Hp0 Hs0]. now apply lfsr_get_random_wp.
    + intros r s' ((He' & Hs') & Hsh' & Hd).
      split.
      * split; [auto|split; [|auto]]. eapply dispensed_pool_inv; eauto.
      * destruct Hd as (disc & out & H1 & H2 & H3 & H4 & H5 & H6).
        exists disc, out. repeat split; auto. intros [_ H]. auto.
  - apply wp_ret. split; [split; [exact He|split; [exact Hl|exact Hs]]|].
    exists [], []. cbn [app length fst snd]. rewrite drop_0.
    repeat split; auto; try lia. intros [_ H]. discriminate.
Qed.

End Pools.

(** ** The adapter of the file *)

Section BuiltinAdapter.
Import Builtin.
Variable max_attempts ehr_words : Z.
Variable halt_on_fatal ndebug : bool.
Hypothesis Hmax : 1 <= max_attempts < 2 ^ 32.







End BuiltinAdapter.

(** ** The entry points keep the state well formed *)

Section Calls.
Context `{P : Platform}.
Hypothesis HP : platform_ok.

Lemma state_ok_pool_inv q s : state_ok s -> pool_inv (pool_of_quality q) s.
Proof. intros (He & Hl & _). destruct q; assumption. Qed.

Lemma state_ok_set_hw h s : state_ok s -> state_ok (set_hw h s).
Proof. exact (fun H => H). Qed.

Lemma state_ok_at_most_once s : state_ok s -> seeded_at_most_once s.
Proof. intros (_ & _ & H). now apply seed_inv_at_most_once. Qed.

(** A draw, with the bookkeeping of the stream left out. *)
Lemma get_random_state_ok buf_addr dst len quality s :
  state_ok s -> 0 <= len < 2 ^ 32 -> len <= Z.of_nat (length dst) ->
  wp (cc3xx_lowlevel_rng_get_random buf_addr dst len quality)
     (fun _ s' => state_ok s') seeded_at_most_once s.
Proof.
  intros Hok Hlen Hfit.
  destruct (state_ok_pool_inv quality s Hok) as [_ [pre Hpre]].
  eapply wp_mono; [apply (get_random_wp HP buf_addr dst len quality s pre); auto| |auto].
  intros r s' [H _]. exact H.
Qed.

Lemma uint_loop_wp fuel bound mask attempts value uint quality s :
  state_ok s ->
  0 <= attempts <= 2 ^ 32 - 2 ->
  CC3XX_CONFIG_RNG_MAX_ATTEMPTS - attempts <= Z.of_nat fuel -> (1 <= fuel)%nat ->
  wp (uint_loop fuel bound mask attempts value uint quality)
     (fun _ s' => state_ok s') seeded_at_most_once s.
Proof.
  destruct HP as (_ & _ & Hmax).
  revert attempts value s.
  induction fuel as [|fuel IH]; intros attempts value s Hok Hatt Hfuel Hpos; [lia|].
  cbn [uint_loop]. apply wp_bind.
  eapply wp_mono; [apply get_random_state_ok; auto; cbn; lia| |auto].
  intros [err vb] s1 Hok1.
  destruct (is_success err); cbn [negb]; [|now apply wp_ret].
  unfold u32. rewrite Z.mod_small by lia.
  destruct (attempts + 1 >=? CC3XX_CONFIG_RNG_MAX_ATTEMPTS) eqn:E.
  - apply wp_bind, wp_lift_plat; auto using state_ok_at_most_once.
  - rewrite Z.geb_leb in E. apply Z.leb_gt in E.
    destruct (_ >=? bound); [|now apply wp_ret].
    apply IH; auto; lia.
Qed.

Lemma get_random_uint_wp bound uint quality s :
  state_ok s ->
  wp (cc3xx_lowlevel_rng_get_random_uint bound uint quality)
     (fun _ s' => state_ok s') seeded_at_most_once s.
Proof.
  intros Hok. unfold cc3xx_lowlevel_rng_get_random_uint.
  apply wp_bind, wp_c_assert; [|now apply state_ok_at_most_once].
  apply uint_loop_wp; auto; lia.
Qed.

Lemma fisher_yates_loop_wp fuel idx swap_idx len buf quality s :
  state_ok s -> 1 <= len < 2 ^ 32 -> 0 <= idx <= len ->
  len - idx <= Z.of_nat fuel ->
  wp (fisher_yates_loop fuel idx swap_idx len buf quality)
     (fun _ s' => state_ok s') seeded_at_most_once s.
Proof.
  intros Hok Hlen. revert idx swap_idx buf s Hok.
  induction fuel as [|fuel IH]; intros idx swap_idx buf s Hok Hidx Hfuel;
    cbn [fisher_yates_loop]; unfold usize; rewrite (Z.mod_small (len - 1)) by lia;
    destruct (Z.leb_spec idx (len - 1)); try (now apply wp_ret); [lia|].
  apply wp_bind.
  eapply wp_mono; [apply get_random_uint_wp; auto| |auto].
  intros [err sw] s1 Hok1.
  unfold u32. rewrite (Z.mod_small (idx + 1)) by lia.
  destruct (is_success err); cbn [negb]; apply IH; auto; lia.
Qed.

Lemma permutation_init_loop_wp fuel idx len buf (s : rng_state)
    (Q : list Z -> rng_state -> Prop) J :
  0 <= idx <= len -> len < 2 ^ 32 -> len - idx <= Z.of_nat fuel ->
  (forall buf', Q buf' s) ->
  wp (permutation_init_loop fuel idx len buf) Q J s.
Proof.
  intros Hidx Hlen Hfuel HQ. revert idx buf Hidx Hfuel.
  induction fuel as [|fuel IH]; intros idx buf Hidx Hfuel;
    cbn [permutation_init_loop];
    destruct (Z.ltb_spec idx len); try (now apply wp_ret); [lia|].
  unfold u32. rewrite Z.mod_small by lia. apply IH; lia.
Qed.

Lemma get_random_permutation_wp buf len quality s :
  state_ok s -> 0 <= len < 2 ^ 32 ->
  wp (cc3xx_lowlevel_rng_get_random_permutation buf len quality)
     (fun _ s' => state_ok s') seeded_at_most_once s.
Proof.
  intros Hok Hlen. unfold cc3xx_lowlevel_rng_get_random_permutation.
  apply wp_bind, permutation_init_loop_wp; try lia.
  intros buf'. destruct CC3XX_CONFIG_DPA_MITIGATIONS_ENABLE; [|now apply wp_ret].
  unfold fisher_yates_shuffle. destruct (Z.eqb_spec len 0); [now apply wp_ret|].
  apply fisher_yates_loop_wp; auto; lia.
Qed.

(** The fuel the entry points give their loops is enough. *)
Lemma get_random_fuel_suffices buf_addr dst len quality s :
  state_ok s -> 0 <= len < 2 ^ 32 -> len <= Z.of_nat (length dst) ->
  cc3xx_lowlevel_rng_get_random buf_addr dst len quality s <> OutOfFuel.
Proof. intros. eapply wp_fuel, get_random_state_ok; eauto. Qed.

Lemma get_random_uint_fuel_suffices bound uint quality s :
  state_ok s ->
  cc3xx_lowlevel_rng_get_random_uint bound uint quality s <> OutOfFuel.
Proof. intros. eapply wp_fuel, get_random_uint_wp; eauto. Qed.

Lemma get_random_permutation_fuel_suffices buf len quality s :
  state_ok s -> 0 <= len < 2 ^ 32 ->
  cc3xx_lowlevel_rng_get_random_permutation buf len quality s <> OutOfFuel.
Proof. intros. eapply wp_fuel, get_random_permutation_wp; eauto. Qed.

End Calls.

(** ** Errors of the adapter *)

Section Lifecycle.
Context `{P : Platform}.
Hypothesis HP : platform_ok.

Lemma wp_lift_plat_ret {A : Type} (m : M plat A) (Q : A -> rng_state -> Prop) J s a h :
  m (hw s) = Ret a h -> Q a (set_hw h s) -> wp (lift_plat m) Q J s.
Proof. intros Hm HQ. unfold wp, lift_plat. rewrite Hm. exact HQ. Qed.

Lemma wp_ret_ex {S A : Type} (m : M S A) (Q : A -> S -> Prop) s :
  wp m Q (fun _ => False) s -> exists a s', m s = Ret a s' /\ Q a s'.
Proof. unfold wp. destruct (m s); [eauto|contradiction..]. Qed.

(** The error of a failed refill does not reach the caller: once the pool
    is used up, a request of the cryptographically secure quality whose
    refill fails with [e] returns what [trng_finish] returns. *)
Lemma get_random_secure_refill_error buf_addr dst len s h1 e ws h2 e' h3 :
  used_idx (entropy_pool s) = max_buf_size EntropyPool ->
  0 < len < 2 ^ 32 ->
  trng_init (hw s) = Ret CC3XX_ERR_SUCCESS h1 ->
  trng_get_random (max_buf_size EntropyPool / 4) h1 = Ret (e, ws) h2 ->
  e <> CC3XX_ERR_SUCCESS ->
  trng_finish h2 = Ret e' h3 ->
  exists s',
    cc3xx_lowlevel_rng_get_random buf_addr dst len
      CC3XX_RNG_CRYPTOGRAPHICALLY_SECURE s = Ret (e', dst) s' /\
    hw s' = h3.
Proof.
  intros Hused Hlen Hinit Hget He Hfin.
  pose proof (max_buf_size_bounds HP EntropyPool) as [Hmax Hmax4].
  cut (wp (cc3xx_lowlevel_rng_get_random buf_addr dst len
             CC3XX_RNG_CRYPTOGRAPHICALLY_SECURE)
          (fun r s' => r = (e', dst) /\ hw s' = h3) (fun _ => False) s).
  { intros H. apply wp_ret_ex in H as ([e0 d0] & s' & Hrun & Hr & Hh).
    exists s'. rewrite Hrun, Hr. auto. }
  cbn [cc3xx_lowlevel_rng_get_random]. unfold get_random_secure, get_random_from.
  cbv zeta. apply wp_bind.
  set (aligned := (Z.land buf_addr 3 =? 0) && (Z.land len 3 =? 0)).
  assert (Halign : wp (if aligned
      then modify (fun s => let p := get_pool EntropyPool s in
             set_pool EntropyPool (set_used_idx (round_up (used_idx p) 4) p) s)
      else ret tt)
      (fun _ s' => hw s' = hw s /\
                   used_idx (entropy_pool s') = max_buf_size EntropyPool)
      (fun _ => False) s).
  { destruct aligned; [apply wp_modify|apply wp_ret]; (split; [reflexivity|]);
      [|exact Hused].
    cbn [get_pool set_pool set_entropy_pool entropy_pool set_used_idx used_idx].
    rewrite Hused.
    destruct (round_up_4 (max_buf_size EntropyPool) (max_buf_size EntropyPool))
      as (? & ? & ?); [lia|lia|assumption|lia]. }
  eapply wp_mono; [exact Halign| |auto]. clear Halign.
  intros _ sa [Hhw Hua]. apply wp_bind, wp_get.
  cbn [get_pool]. rewrite Hua, Z.sub_diag.
  assert (Hreq : (usize 0 <? len) = true).
  { unfold usize. rewrite Z.mod_0_l by lia. apply Z.ltb_lt. lia. }
  rewrite !Hreq. cbn [andb is_cryptographically_secure].
  apply wp_bind. rewrite <- Hhw in Hinit.
  eapply wp_lift_plat_ret; [exact Hinit|]. cbn [is_success negb].
  apply wp_bind.
  destruct (Z.to_nat len) as [|fuel] eqn:Efuel; [lia|].
  rewrite fill_loop_S. destruct (Z.leb_spec len 0); [lia|].
  unfold fill_round. apply wp_bind, wp_get.
  cbn [get_pool set_hw entropy_pool]. rewrite Hua, Z.eqb_refl.
  apply wp_bind. unfold refill. apply wp_bind. unfold trng_random_fn.
  eapply wp_lift_plat_ret; [exact Hget|]. cbv beta iota.
  assert (Hee : is_success e = false) by (destruct e; [contradiction|reflexivity..]).
  apply wp_bind, wp_get. rewrite Hee.
  apply wp_bind, wp_modify, wp_ret. rewrite Hee. cbn [negb].
  apply wp_ret. cbv beta iota.
  eapply wp_bind, wp_lift_plat_ret; [exact Hfin|].
  apply wp_ret. auto.
Qed.

End Lifecycle.

(** ** The bounded sampler *)

Section Sampler.
Context `{P : Platform}.

Lemma uint_mask_nonneg bound : 0 <= uint_mask bound.
Proof.
  unfold uint_mask. destruct (_ =? 0).
  - apply Z.mod_pos_bound. lia.
  - apply Z.shiftr_nonneg. unfold UINT32_MAX. lia.
Qed.

(** One round of the sampling loop, by cases on the draw. *)
Lemma uint_loop_round fuel bound mask attempts value uint q s :
  uint_loop (S fuel) bound mask attempts value uint q s
  = match cc3xx_lowlevel_rng_get_random 0 (word_bytes value) 4 q s with
    | Ret (err, value_bytes) s1 =>
      if negb (is_success err) then Ret (err, uint) s1
      else if u32 (attempts + 1) >=? CC3XX_CONFIG_RNG_MAX_ATTEMPTS then
        (lift_plat (FATAL_ERR CC3XX_ERR_RNG_TOO_MANY_ATTEMPTS) ;;;
         ret (CC3XX_ERR_RNG_TOO_MANY_ATTEMPTS, uint)) s1
      else if Z.land (le_value value_bytes) mask >=? bound then
        uint_loop fuel bound mask (u32 (attempts + 1))
                  (Z.land (le_value value_bytes) mask) uint q s1
      else Ret (CC3XX_ERR_SUCCESS, Z.land (le_value value_bytes) mask) s1
    | Halt w s1 => Halt w s1
    | OutOfFuel => OutOfFuel
    end.
Proof.
  cbn [uint_loop]. unfold bind at 1.
  destruct (cc3xx_lowlevel_rng_get_random 0 (word_bytes value) 4 q s)
    as [[err vb] s1| |]; try reflexivity.
  destruct (negb (is_success err)); [reflexivity|].
  destruct (_ >=? CC3XX_CONFIG_RNG_MAX_ATTEMPTS); [reflexivity|].
  destruct (_ >=? bound); reflexivity.
Qed.

Lemma fatal_never_success (uint : Z) (s : rng_state) v s' :
  (lift_plat (FATAL_ERR CC3XX_ERR_RNG_TOO_MANY_ATTEMPTS) ;;;
   ret (CC3XX_ERR_RNG_TOO_MANY_ATTEMPTS, uint)) s
  <> Ret (CC3XX_ERR_SUCCESS, v) s'.
Proof.
  unfold bind, lift_plat, ret.
  destruct (FATAL_ERR CC3XX_ERR_RNG_TOO_MANY_ATTEMPTS (hw s)); discriminate.
Qed.

(** A successful return of the loop comes from an accepted draw: some
    number [n] of rejected draws, then a draw whose masked value is below
    [bound], taken while the counter is still below the maximum. *)
Lemma uint_loop_success fuel bound mask attempts value uint q s v s' :
  0 <= attempts < 2 ^ 32 - 1 -> CC3XX_CONFIG_RNG_MAX_ATTEMPTS < 2 ^ 32 ->
  uint_loop fuel bound mask attempts value uint q s = Ret (CC3XX_ERR_SUCCESS, v) s' ->
  exists n value1 s1 value_bytes,
    rejected_draws bound mask q n value s value1 s1 /\
    cc3xx_lowlevel_rng_get_random 0 (word_bytes value1) 4 q s1
    = Ret (CC3XX_ERR_SUCCESS, value_bytes) s' /\
    v = Z.land (le_value value_bytes) mask /\ v < bound /\
    attempts + Z.of_nat n + 1 < CC3XX_CONFIG_RNG_MAX_ATTEMPTS.
Proof.
  intros Hatt Hmax. revert attempts value s Hatt.
  induction fuel as [|fuel IH]; intros attempts value s Hatt H; [discriminate|].
  rewrite uint_loop_round in H.
  destruct (cc3xx_lowlevel_rng_get_random 0 (word_bytes value) 4 q s)
    as [[err vb] s1| |] eqn:Edraw; try discriminate.
  destruct err; cbn [is_success negb] in H; try discriminate.
  unfold u32 in H. rewrite (Z.mod_small (attempts + 1)) in H by lia.
  destruct (attempts + 1 >=? CC3XX_CONFIG_RNG_MAX_ATTEMPTS) eqn:Emax.
  { now apply fatal_never_success in H. }
  rewrite Z.geb_leb in Emax. apply Z.leb_gt in Emax.
  destruct (Z.land (le_value vb) mask >=? bound) eqn:Eacc.
  - rewrite Z.geb_leb in Eacc. apply Z.leb_le in Eacc.
    apply IH in H; [|lia].
    destruct H as (n & value1 & s2 & vb' & Hrej & Hdraw & Hv & Hlt & Hcnt).
    exists (S n), value1, s2, vb'. repeat split; auto; [|lia].
    eapply rejected_more; eauto.
  - rewrite Z.geb_leb in Eacc. apply Z.leb_gt in Eacc.
    injection H as <- <-.
    exists O, value, s, vb. repeat split; auto; [constructor|lia].
Qed.

(** Rejected draws only advance the loop. *)
Lemma uint_loop_rejected n fuel bound mask attempts value uint q s value' s' :
  rejected_draws bound mask q n value s value' s' ->
  0 <= attempts -> attempts + Z.of_nat n < CC3XX_CONFIG_RNG_MAX_ATTEMPTS ->
  CC3XX_CONFIG_RNG_MAX_ATTEMPTS < 2 ^ 32 ->
  uint_loop (n + fuel) bound mask attempts value uint q s
  = uint_loop fuel bound mask (attempts + Z.of_nat n) value' uint q s'.
Proof.
  intros Hrej. revert attempts.
  induction Hrej as [|n value s vb s1 value' s' Hdraw Hge Hrej IH];
    intros attempts Hatt Hcnt Hmax.
  - cbn [Nat.add]. f_equal. lia.
  - cbn [Nat.add]. rewrite uint_loop_round, Hdraw. cbn [is_success negb].
    unfold u32. rewrite (Z.mod_small (attempts + 1)) by lia.
    destruct (attempts + 1 >=? CC3XX_CONFIG_RNG_MAX_ATTEMPTS) eqn:Emax.
    { rewrite Z.geb_leb in Emax. apply Z.leb_le in Emax. lia. }
    destruct (Z.land (le_value vb) mask >=? bound) eqn:Eacc.
    + rewrite IH by lia. f_equal. lia.
    + rewrite Z.geb_leb in Eacc. apply Z.leb_gt in Eacc. lia.
Qed.

Lemma get_random_uint_success bound uint q s v s' :
  CC3XX_CONFIG_RNG_MAX_ATTEMPTS < 2 ^ 32 ->
  cc3xx_lowlevel_rng_get_random_uint bound uint q s = Ret (CC3XX_ERR_SUCCESS, v) s' ->
  exists n value1 s1 value_bytes,
    rejected_draws bound (uint_mask bound) q n 0 s value1 s1 /\
    cc3xx_lowlevel_rng_get_random 0 (word_bytes value1) 4 q s1
    = Ret (CC3XX_ERR_SUCCESS, value_bytes) s' /\
    v = Z.land (le_value value_bytes) (uint_mask bound) /\ v < bound /\
    Z.of_nat n + 1 < CC3XX_CONFIG_RNG_MAX_ATTEMPTS.
Proof.
  intros Hmax H. unfold cc3xx_lowlevel_rng_get_random_uint, bind, c_assert in H.
  destruct (NDEBUG || negb (bound =? 0)); [|discriminate].
  cbn [ret] in H. now apply uint_loop_success in H.
Qed.

(** The accepted value lies in [[0, bound)]. *)
Lemma uint_loop_accepts fuel bound mask attempts value uint q s v s' :
  0 <= mask ->
  uint_loop fuel bound mask attempts value uint q s = Ret (CC3XX_ERR_SUCCESS, v) s' ->
  0 <= v < bound.
Proof.
  intros Hmask. revert attempts value s.
  induction fuel as [|fuel IH]; intros attempts value s H; [discriminate|].
  rewrite uint_loop_round in H.
  destruct (cc3xx_lowlevel_rng_get_random 0 (word_bytes value) 4 q s)
    as [[err vb] s1| |]; try discriminate.
  destruct err; cbn [is_success negb] in H; try discriminate.
  destruct (_ >=? CC3XX_CONFIG_RNG_MAX_ATTEMPTS).
  { now apply fatal_never_success in H. }
  destruct (Z.land (le_value vb) mask >=? bound) eqn:Eacc; [eauto|].
  rewrite Z.geb_leb in Eacc. apply Z.leb_gt in Eacc.
  injection H as <- <-. split; [|exact Eacc].
  apply Z.land_nonneg. now right.
Qed.

Lemma get_random_uint_accepts bound uint q s v s' :
  cc3xx_lowlevel_rng_get_random_uint bound uint q s = Ret (CC3XX_ERR_SUCCESS, v) s' ->
  0 <= v < bound.
Proof.
  intros H. unfold cc3xx_lowlevel_rng_get_random_uint, bind, c_assert in H.
  destruct (NDEBUG || negb (bound =? 0)); [|discriminate].
  cbn [ret] in H. eapply uint_loop_accepts; eauto using uint_mask_nonneg.
Qed.

(** C1.  For every bound of at least 1 and every quality, a call of
    [cc3xx_lowlevel_rng_get_random_uint] that returns [CC3XX_ERR_SUCCESS]
    has stored in [*uint] a value strictly below the bound. *)
Theorem get_random_uint_below_bound bound uint q s v s' :
  1 <= bound ->
  cc3xx_lowlevel_rng_get_random_uint bound uint q s = Ret (CC3XX_ERR_SUCCESS, v) s' ->
  0 <= v < bound.
Proof. intros _. apply get_random_uint_accepts. Qed.

(** *** The mask *)

Lemma land_pred_pow2 (b : Z) :
  0 < b -> Z.land b (b - 1) = 0 -> b = 2 ^ Z.log2 b.
Proof.
  intros Hb Hland.
  destruct (Z.log2_spec b Hb) as [Hlo Hhi].
  destruct (Z.eq_dec b (2 ^ Z.log2 b)) as [|Hne]; [assumption|exfalso].
  assert (Hk : 0 <= Z.log2 b) by apply Z.log2_nonneg.
  assert (Hlog : Z.log2 (b - 1) = Z.log2 b).
  { apply Z.log2_unique; [assumption|]. rewrite <- Z.add_1_r in *. lia. }
  assert (Hbit : Z.testbit (Z.land b (b - 1)) (Z.log2 b) = true).
  { rewrite Z.land_spec, Z.bit_log2 by lia.
    rewrite <- Hlog. rewrite Z.bit_log2; [reflexivity|].
    assert (0 < 2 ^ Z.log2 b) by (apply Z.pow_pos_nonneg; lia). lia. }
  rewrite Hland, Z.bits_0 in Hbit. discriminate.
Qed.

Lemma testbit_top (n x : Z) :
  0 <= n -> 0 <= x < 2 ^ (n + 1) ->
  Z.testbit x n = true <-> 2 ^ n <= x.
Proof.
  intros Hn Hx. rewrite Z.testbit_true by assumption.
  assert (Hpow : 0 < 2 ^ n) by (apply Z.pow_pos_nonneg; lia).
  rewrite Z.pow_add_r, Z.pow_1_r in Hx by lia.
  split; intros H.
  - destruct (Z_lt_le_dec x (2 ^ n)) as [Hlt|]; [|assumption].
    rewrite Z.div_small in H by lia. discriminate.
  - replace (x / 2 ^ n) with 1; [reflexivity|].
    apply Z.div_unique with (r := x - 2 ^ n); lia.
Qed.

Lemma clz_from_log2 (n : nat) (x : Z) :
  0 < x < 2 ^ Z.of_nat n -> clz_from n x = Z.of_nat n - 1 - Z.log2 x.
Proof.
  induction n as [|n IH]; intros Hx.
  - cbn in Hx. lia.
  - cbn [clz_from].
    replace (Z.of_nat (S n)) with (Z.of_nat n + 1) in * by lia.
    destruct (Z.testbit x (Z.of_nat n)) eqn:Ebit.
    + apply testbit_top in Ebit; [|lia..].
      rewrite (Z.log2_unique x (Z.of_nat n)); [lia|lia|].
      rewrite <- Z.add_1_r. lia.
    + assert (Hlt : x < 2 ^ Z.of_nat n).
      { destruct (Z_lt_le_dec x (2 ^ Z.of_nat n)) as [|Hge]; [assumption|].
        apply testbit_top in Hge; [congruence|lia..]. }
      rewrite IH by lia. lia.
Qed.

Lemma builtin_clz_log2 (x : Z) :
  0 < x < 2 ^ 32 -> builtin_clz x = 31 - Z.log2 x.
Proof. intros Hx. unfold builtin_clz. rewrite clz_from_log2; [reflexivity|exact Hx]. Qed.

Lemma uint_mask_pow2 (k : Z) :
  0 <= k <= 31 -> uint_mask (2 ^ k) = 2 ^ k - 1.
Proof.
  intros Hk. unfold uint_mask, u32.
  assert (Hpow : 0 < 2 ^ k < 2 ^ 32).
  { split; [apply Z.pow_pos_nonneg; lia|apply Z.pow_lt_mono_r; lia]. }
  rewrite (Z.mod_small (2 ^ k - 1)) by lia.
  replace (2 ^ k - 1) with (Z.ones k) by (rewrite Z.ones_equiv; lia).
  rewrite Z.land_ones by lia. rewrite Z.mod_same by lia. reflexivity.
Qed.

Lemma uint_mask_not_pow2 (bound : Z) :
  0 < bound < 2 ^ 32 -> (forall k, bound <> 2 ^ k) ->
  uint_mask bound = Z.shiftr UINT32_MAX (builtin_clz bound).
Proof.
  intros Hb Hnot. unfold uint_mask, u32.
  rewrite (Z.mod_small (bound - 1)) by lia.
  destruct (Z.eqb_spec (Z.land bound (bound - 1)) 0) as [Hland|]; [|reflexivity].
  exfalso. apply (Hnot (Z.log2 bound)). apply land_pred_pow2; [lia|assumption].
Qed.

(** C5.  The mask of [cc3xx_lowlevel_rng_get_random_uint]: for a bound
    that is a power of two it is [bound - 1], and the acceptance test lets
    every draw through; for any other bound it is the all-ones word
    shifted right by the number of leading zeros of the bound; for the
    bound 10 it is [0x0F], and a draw whose masked value lies in 10..15 is
    rejected and the loop draws again. *)
Theorem uint_mask_cases :
  (forall k, 0 <= k <= 31 ->
     uint_mask (2 ^ k) = 2 ^ k - 1 /\
     (forall raw, Z.land raw (uint_mask (2 ^ k)) < 2 ^ k) /\
     (forall fuel attempts value uint q s value_bytes s1,
        cc3xx_lowlevel_rng_get_random 0 (word_bytes value) 4 q s
        = Ret (CC3XX_ERR_SUCCESS, value_bytes) s1 ->
        u32 (attempts + 1) < CC3XX_CONFIG_RNG_MAX_ATTEMPTS ->
        uint_loop (S fuel) (2 ^ k) (uint_mask (2 ^ k)) attempts value uint q s
        = Ret (CC3XX_ERR_SUCCESS,
               Z.land (le_value value_bytes) (uint_mask (2 ^ k))) s1)) /\
  (forall bound, 0 < bound < 2 ^ 32 -> (forall k, bound <> 2 ^ k) ->
     uint_mask bound = Z.shiftr UINT32_MAX (builtin_clz bound) /\
     builtin_clz bound = 31 - Z.log2 bound) /\
  (builtin_clz 10 = 28 /\ uint_mask 10 = 0x0F /\
   (forall fuel attempts value uint q s value_bytes s1,
      cc3xx_lowlevel_rng_get_random 0 (word_bytes value) 4 q s
      = Ret (CC3XX_ERR_SUCCESS, value_bytes) s1 ->
      10 <= Z.land (le_value value_bytes) 0x0F <= 15 ->
      u32 (attempts + 1) < CC3XX_CONFIG_RNG_MAX_ATTEMPTS ->
      uint_loop (S fuel) 10 (uint_mask 10) attempts value uint q s
      = uint_loop fuel 10 (uint_mask 10) (u32 (attempts + 1))
                  (Z.land (le_value value_bytes) 0x0F) uint q s1)).
Proof.
  split; [|split].
  - intros k Hk. rewrite uint_mask_pow2 by assumption.
    assert (Hones : 2 ^ k - 1 = Z.ones k) by (rewrite Z.ones_equiv; lia).
    assert (Hacc : forall raw, Z.land raw (2 ^ k - 1) < 2 ^ k).
    { intros raw. rewrite Hones, Z.land_ones by lia.
      apply Z.mod_pos_bound, Z.pow_pos_nonneg; lia. }
    split; [reflexivity|split; [exact Hacc|]].
    intros fuel attempts value uint q s vb s1 Hdraw Hcnt.
    rewrite uint_loop_round, Hdraw. cbn [is_success negb].
    destruct (Z.geb_spec (u32 (attempts + 1)) CC3XX_CONFIG_RNG_MAX_ATTEMPTS); [lia|].
    destruct (Z.geb_spec (Z.land (le_value vb) (2 ^ k - 1)) (2 ^ k)) as [Hge|];
      [|reflexivity].
    specialize (Hacc (le_value vb)). lia.
  - intros bound Hb Hnot. split.
    + now apply uint_mask_not_pow2.
    + now apply builtin_clz_log2.
  - split; [reflexivity|split; [reflexivity|]].
    intros fuel attempts value uint q s vb s1 Hdraw Hrej Hcnt.
    rewrite uint_loop_round, Hdraw. cbn [is_success negb].
    destruct (Z.geb_spec (u32 (attempts + 1)) CC3XX_CONFIG_RNG_MAX_ATTEMPTS); [lia|].
    change (uint_mask 10) with 0x0F.
    destruct (Z.geb_spec (Z.land (le_value vb) 0x0F) 10); [reflexivity|lia].
Qed.

(** C10.  The counter is advanced and compared with
    [CC3XX_CONFIG_RNG_MAX_ATTEMPTS] before the drawn value is looked at:
    after [CC3XX_CONFIG_RNG_MAX_ATTEMPTS - 1] rejected draws the next draw
    ends the call with the fatal-error hook and
    [CC3XX_ERR_RNG_TOO_MANY_ATTEMPTS] whatever its value; a successful
    return is preceded by at most [CC3XX_CONFIG_RNG_MAX_ATTEMPTS - 2]
    rejected draws, that is, the accepted draw is one of the first
    [CC3XX_CONFIG_RNG_MAX_ATTEMPTS - 1]. *)
Theorem uint_last_attempt_discarded :
  1 <= CC3XX_CONFIG_RNG_MAX_ATTEMPTS < 2 ^ 32 ->
  (forall bound uint q s value s1 value_bytes s2,
     bound <> 0 ->
     rejected_draws bound (uint_mask bound) q
       (Z.to_nat (CC3XX_CONFIG_RNG_MAX_ATTEMPTS - 1)) 0 s value s1 ->
     cc3xx_lowlevel_rng_get_random 0 (word_bytes value) 4 q s1
     = Ret (CC3XX_ERR_SUCCESS, value_bytes) s2 ->
     cc3xx_lowlevel_rng_get_random_uint bound uint q s
     = (lift_plat (FATAL_ERR CC3XX_ERR_RNG_TOO_MANY_ATTEMPTS) ;;;
        ret (CC3XX_ERR_RNG_TOO_MANY_ATTEMPTS, uint)) s2) /\
  (forall bound uint q s v s',
     cc3xx_lowlevel_rng_get_random_uint bound uint q s
     = Ret (CC3XX_ERR_SUCCESS, v) s' ->
     exists n value s1 value_bytes,
       rejected_draws bound (uint_mask bound) q n 0 s value s1 /\
       cc3xx_lowlevel_rng_get_random 0 (word_bytes value) 4 q s1
       = Ret (CC3XX_ERR_SUCCESS, value_bytes) s' /\
       v = Z.land (le_value value_bytes) (uint_mask bound) /\
       Z.of_nat n + 1 <= CC3XX_CONFIG_RNG_MAX_ATTEMPTS - 1).
Proof.
  intros Hmax. split.
  - intros bound uint q s value s1 vb s2 Hb Hrej Hdraw.
    unfold cc3xx_lowlevel_rng_get_random_uint, bind at 1, c_assert.
    destruct (Z.eqb_spec bound 0) as [|_]; [contradiction|].
    rewrite orb_true_r. cbn [negb ret].
    replace (S (Z.to_nat CC3XX_CONFIG_RNG_MAX_ATTEMPTS))
      with (Z.to_nat (CC3XX_CONFIG_RNG_MAX_ATTEMPTS - 1) + 2)%nat by lia.
    rewrite (uint_loop_rejected _ _ _ _ _ _ _ _ _ _ _ Hrej) by lia.
    rewrite uint_loop_round, Hdraw. cbn [is_success negb].
    unfold u32. rewrite Z.mod_small by lia.
    destruct (Z.geb_spec (0 + Z.of_nat (Z.to_nat (CC3XX_CONFIG_RNG_MAX_ATTEMPTS - 1)) + 1)
                         CC3XX_CONFIG_RNG_MAX_ATTEMPTS); [reflexivity|lia].
  - intros bound uint q s v s' H.
    apply get_random_uint_success in H; [|lia].
    destruct H as (n & value & s1 & vb & Hrej & Hdraw & Hv & _ & Hcnt).
    exists n, value, s1, vb. repeat split; auto. lia.
Qed.

End Sampler.

(** ** The permutation *)

Section Permutation.
Context `{P : Platform}.

Lemma uint_loop_uint fuel bound mask attempts value uint q s :
  uint_loop fuel bound mask attempts value uint q s
  = match uint_loop fuel bound mask attempts value 0 q s with
    | Ret (e, v) s' => Ret (e, if is_success e then v else uint) s'
    | Halt w s' => Halt w s'
    | OutOfFuel => OutOfFuel
    end.
Proof.
  revert attempts value s. induction fuel as [|fuel IH]; intros attempts value s;
    [reflexivity|].
  rewrite !uint_loop_round.
  destruct (cc3xx_lowlevel_rng_get_random 0 (word_bytes value) 4 q s)
    as [[err vb] s1| |]; try reflexivity.
  destruct err; cbn [is_success negb]; try reflexivity.
  destruct (_ >=? CC3XX_CONFIG_RNG_MAX_ATTEMPTS).
  { unfold bind, lift_plat, ret.
    destruct (FATAL_ERR CC3XX_ERR_RNG_TOO_MANY_ATTEMPTS (hw s1)); reflexivity. }
  destruct (_ >=? bound); [apply IH|reflexivity].
Qed.

Lemma get_random_uint_uint bound uint q s :
  cc3xx_lowlevel_rng_get_random_uint bound uint q s
  = match cc3xx_lowlevel_rng_get_random_uint bound 0 q s with
    | Ret (e, v) s' => Ret (e, if is_success e then v else uint) s'
    | Halt w s' => Halt w s'
    | OutOfFuel => OutOfFuel
    end.
Proof.
  unfold cc3xx_lowlevel_rng_get_random_uint, bind, c_assert.
  destruct (NDEBUG || negb (bound =? 0)); [|reflexivity].
  cbn [ret]. apply uint_loop_uint.
Qed.

Lemma fisher_yates_loop_spec q len :
  1 <= len < 2 ^ 32 ->
  forall fuel idx swap_idx buf s,
    0 <= idx <= len -> len - idx <= Z.of_nat fuel ->
    fisher_yates_loop fuel idx swap_idx len buf q s
    = fisher_yates_spec (seq (Z.to_nat idx) (Z.to_nat (len - idx)))
                        (Z.to_nat len) buf q s.
Proof.
  intros Hlen. induction fuel as [|fuel IH]; intros idx swap_idx buf s Hidx Hfuel.
  - replace idx with len by lia. cbn [fisher_yates_loop].
    unfold usize. rewrite Z.mod_small by lia.
    destruct (Z.leb_spec len (len - 1)); [lia|].
    rewrite Z.sub_diag. reflexivity.
  - cbn [fisher_yates_loop]. unfold usize.
    rewrite (Z.mod_small (len - 1)) by lia.
    destruct (Z.leb_spec idx (len - 1)) as [Hin|Hout].
    + replace (Z.to_nat (len - idx)) with (S (Z.to_nat (len - (idx + 1)))) by lia.
      cbn [seq fisher_yates_spec]. unfold bind.
      rewrite (Z.mod_small (len - idx)) by lia.
      replace (Z.of_nat (Z.to_nat len - Z.to_nat idx)) with (len - idx) by lia.
      rewrite (get_random_uint_uint _ swap_idx).
      destruct (cc3xx_lowlevel_rng_get_random_uint (len - idx) 0 q s)
        as [[err v] s1| |] eqn:Edraw; try reflexivity.
      unfold u32. rewrite (Z.mod_small (idx + 1)) by lia.
      replace (S (Z.to_nat idx)) with (Z.to_nat (idx + 1)) by lia.
      destruct (is_success err) eqn:Eok; cbn [negb]; [|apply IH; lia].
      destruct err; try discriminate.
      apply get_random_uint_accepts in Edraw.
      rewrite (Z.mod_small (v + idx)) by lia.
      rewrite IH by lia. unfold exchange.
      replace (Z.to_nat (v + idx)) with (Z.to_nat idx + Z.to_nat v)%nat by lia.
      reflexivity.
    + replace idx with len by lia. rewrite Z.sub_diag. reflexivity.
Qed.

Lemma permutation_init_loop_spec len (s : rng_state) :
  len < 2 ^ 32 ->
  forall fuel idx buf,
    0 <= idx <= len -> len - idx <= Z.of_nat fuel ->
    len <= Z.of_nat (length buf) ->
    permutation_init_loop fuel idx len buf s
    = Ret (take (Z.to_nat idx) buf
           ++ map (fun i => u8 (Z.of_nat i))
                  (seq (Z.to_nat idx) (Z.to_nat (len - idx)))
           ++ drop (Z.to_nat len) buf) s.
Proof.
  intros Hlen. induction fuel as [|fuel IH]; intros idx buf Hidx Hfuel Hbuf;
    cbn [permutation_init_loop]; destruct (Z.ltb_spec idx len) as [Hin|Hout];
    try lia.
  - replace idx with len by lia. rewrite Z.sub_diag.
    change (Z.to_nat 0) with O. cbn [seq map app].
    rewrite take_drop. reflexivity.
  - unfold u32. rewrite Z.mod_small by lia. rewrite IH;
      [|lia|lia|rewrite length_insert; lia].
    f_equal.
    replace (Z.to_nat (len - idx)) with (S (Z.to_nat (len - (idx + 1)))) by lia.
    cbn [seq map].
    replace (Z.to_nat (idx + 1)) with (S (Z.to_nat idx)) by lia.
    rewrite drop_insert_lt by lia.
    rewrite (take_S_r _ _ (u8 idx)).
    + rewrite take_insert_ge by lia. rewrite <- app_assoc. cbn [app].
      rewrite Z2Nat.id by lia. reflexivity.
    + apply list_lookup_insert_eq. lia.
  - replace idx with len by lia. rewrite Z.sub_diag.
    change (Z.to_nat 0) with O. cbn [seq map app].
    rewrite take_drop. reflexivity.
Qed.

Lemma identity_bytes_small (len : nat) :
  (len <= 256)%nat -> identity_bytes len = identity_sequence len.
Proof.
  intros Hlen. unfold identity_bytes, identity_sequence.
  apply map_ext_in. intros i Hi. apply in_seq in Hi.
  unfold u8. apply Z.mod_small. lia.
Qed.

Lemma get_random_permutation_spec buf len q s :
  0 <= len < 2 ^ 32 -> len <= Z.of_nat (length buf) ->
  cc3xx_lowlevel_rng_get_random_permutation buf len q s
  = if CC3XX_CONFIG_DPA_MITIGATIONS_ENABLE
    then fisher_yates_spec (seq 0 (Z.to_nat len)) (Z.to_nat len)
           (identity_bytes (Z.to_nat len) ++ drop (Z.to_nat len) buf) q s
    else Ret (identity_bytes (Z.to_nat len) ++ drop (Z.to_nat len) buf) s.
Proof.
  intros Hlen Hbuf. unfold cc3xx_lowlevel_rng_get_random_permutation, bind.
  rewrite permutation_init_loop_spec by lia.
  cbn [Z.to_nat take app]. rewrite Z.sub_0_r. fold (identity_bytes (Z.to_nat len)).
  destruct CC3XX_CONFIG_DPA_MITIGATIONS_ENABLE; [|reflexivity].
  unfold fisher_yates_shuffle. destruct (Z.eqb_spec len 0) as [->|Hne].
  - reflexivity.
  - rewrite fisher_yates_loop_spec by lia. rewrite Z.sub_0_r. reflexivity.
Qed.

End Permutation.

(** ** Sequences of calls *)

Lemma returns_final {A S : Type} (o : outcome A S) (a : A) (s0 : S) :
  returns o a -> o = Ret a (final_state o s0).
Proof. destruct o; cbn; [intros ->; reflexivity|contradiction..]. Qed.

Section CallSequences.
Context `{P : Platform}.
Hypothesis HP : platform_ok.

Lemma boot_state_ok h : state_ok (boot_state h).
Proof.
  destruct HP as (Hw & Hw' & _).
  repeat split; cbn [boot_state get_pool entropy_pool lfsr_pool random_buf used_idx
                     produced max_buf_size length]; try lia.
  - rewrite repeat_length. lia.
  - exists []. unfold unconsumed. cbn [random_buf used_idx app].
    rewrite drop_ge; [reflexivity|].
    rewrite length_bytes_of_words, repeat_length. lia.
  - exists []. reflexivity.
Qed.

Lemma run_call_wp c s :
  valid_call c -> state_ok s ->
  wp (run_call c) (fun _ s' => state_ok s') seeded_at_most_once s.
Proof.
  intros Hv Hok. destruct c as [a d l q|b u q|b l q]; cbn [run_call valid_call] in *;
    apply wp_bind.
  - eapply wp_mono; [apply get_random_state_ok; auto; tauto| |auto].
    intros r s' H. now apply wp_ret.
  - eapply wp_mono; [apply get_random_uint_wp; auto| |auto].
    intros r s' H. now apply wp_ret.
  - eapply wp_mono; [apply get_random_permutation_wp; auto| |auto].
    intros r s' H. now apply wp_ret.
Qed.

Lemma run_calls_wp cs s :
  Forall valid_call cs -> state_ok s ->
  wp (run_calls cs) (fun _ s' => state_ok s') seeded_at_most_once s.
Proof.
  intros Hv. revert s. induction Hv as [|c cs Hc _ IH]; intros s Hok.
  - now apply wp_ret.
  - cbn [run_calls]. apply wp_bind.
    eapply wp_mono; [apply run_call_wp; auto| |auto].
    intros u s' Hok'. now apply IH.
Qed.

(** C7.  From boot, over any sequence of calls of the entry points (of the
    Fast quality or not), the seeding call of [xorshift_plus_128_lfsr] is
    made at most once: it has been made exactly when [lfsr_seed_done] is
    set, and a run that halts has made it at most once. *)
Theorem lfsr_seeded_at_most_once (h : plat) (cs : list rng_call) :
  Forall valid_call cs ->
  match run_calls cs (boot_state h) with
  | Ret _ s => seed_draws s = if lfsr_seed_done s then 1%nat else 0%nat
  | Halt _ s => (seed_draws s <= 1)%nat
  | OutOfFuel => False
  end.
Proof.
  intros Hv. pose proof (run_calls_wp cs (boot_state h) Hv (boot_state_ok h)) as H.
  unfold wp in H. destruct (run_calls cs (boot_state h)); auto.
  destruct H as (_ & _ & H). exact H.
Qed.


End CallSequences.

(** ** The zero bound and the permutation buffer *)

Section ZeroBoundAndBuffer.
Context `{P : Platform}.

(** C6, as it holds on the code.  A call with a zero bound trips [assert(bound != 0)]
    before anything else when assertions are compiled in; whatever the
    build, it never returns [CC3XX_ERR_SUCCESS]. *)
Theorem zero_bound_assertion uint q s :
  (NDEBUG = false ->
   cc3xx_lowlevel_rng_get_random_uint 0 uint q s = Halt AssertionFailed s) /\
  (forall v s',
     cc3xx_lowlevel_rng_get_random_uint 0 uint q s <> Ret (CC3XX_ERR_SUCCESS, v) s').
Proof.
  split.
  - intros Hn. unfold cc3xx_lowlevel_rng_get_random_uint, bind, c_assert.
    rewrite Hn. reflexivity.
  - intros v s' H. apply get_random_uint_accepts in H. lia.
Qed.

(** C9, as it holds on the code.  Without the countermeasure the call stores
    [0, 1, ..., len - 1] reduced to [uint8_t] at the start of the buffer,
    which is the identity sequence for every length up to 256. *)
Theorem get_random_permutation_identity buf len q s :
  CC3XX_CONFIG_DPA_MITIGATIONS_ENABLE = false ->
  0 <= len < 2 ^ 32 -> len <= Z.of_nat (length buf) ->
  cc3xx_lowlevel_rng_get_random_permutation buf len q s
  = Ret (identity_bytes (Z.to_nat len) ++ drop (Z.to_nat len) buf) s /\
  (len <= 256 -> identity_bytes (Z.to_nat len) = identity_sequence (Z.to_nat len)).
Proof.
  intros Hdpa Hlen Hbuf. split.
  - rewrite get_random_permutation_spec by assumption. rewrite Hdpa. reflexivity.
  - intros Hsmall. apply identity_bytes_small. lia.
Qed.

(** C8, as it holds on the code.  With the countermeasure the call runs the Fisher-Yates
    shuffle of the specification on [0, 1, ..., len - 1] reduced to
    [uint8_t], which is the identity sequence for every length up to 256:
    for each index [i] it draws an offset below [len - i], exchanges the
    elements at [i] and [i] plus the offset, and after a failed draw
    leaves the position and goes on. *)
Theorem get_random_permutation_shuffle buf len q s :
  CC3XX_CONFIG_DPA_MITIGATIONS_ENABLE = true ->
  0 <= len < 2 ^ 32 -> len <= Z.of_nat (length buf) ->
  cc3xx_lowlevel_rng_get_random_permutation buf len q s
  = fisher_yates_spec (seq 0 (Z.to_nat len)) (Z.to_nat len)
      (identity_bytes (Z.to_nat len) ++ drop (Z.to_nat len) buf) q s /\
  (len <= 256 -> identity_bytes (Z.to_nat len) = identity_sequence (Z.to_nat len)).
Proof.
  intros Hdpa Hlen Hbuf. split.
  - rewrite get_random_permutation_spec by assumption. rewrite Hdpa. reflexivity.
  - intros Hsmall. apply identity_bytes_small. lia.
Qed.

End ZeroBoundAndBuffer.

(** ** Runs on the sample configurations *)

(** C3.  On a peripheral whose health tests keep failing, with a fatal-error
    hook that hands control back: [trng_init] succeeds, [trng_get_random]
    fails with [CC3XX_ERR_RNG_TOO_MANY_ATTEMPTS], and the request of four
    cryptographically secure bytes made from boot returns
    [CC3XX_ERR_SUCCESS] with the caller's buffer as it was. *)
Theorem get_random_hides_trng_failure :
  match Builtin.trng_init 0x1337 0 failing_hw with
  | Ret CC3XX_ERR_SUCCESS h1 =>
    match Builtin.trng_get_random 16 6 false false 6 h1 with
    | Ret (e, _) _ => e = CC3XX_ERR_RNG_TOO_MANY_ATTEMPTS
    | _ => False
    end
  | _ => False
  end /\
  match cc3xx_lowlevel_rng_get_random (P := sample_platform false false false)
          0 [0; 0; 0; 0] 4 CC3XX_RNG_CRYPTOGRAPHICALLY_SECURE
          (sample_boot false false false failing_hw) with
  | Ret (e, dst) s' =>
    e = CC3XX_ERR_SUCCESS /\ dst = [0; 0; 0; 0] /\
    Builtin.fatal_errors (hw s') = [CC3XX_ERR_RNG_TOO_MANY_ATTEMPTS]
  | _ => False
  end.
Proof. vm_compute. repeat split. Qed.

(** C6 does not hold when assertions are compiled out: the call draws
    (the generator gets seeded) and ends with
    [CC3XX_ERR_RNG_TOO_MANY_ATTEMPTS]. *)
Lemma zero_bound_not_rejected :
  ~ zero_bound_rejected (P := sample_platform false true false)
      0 CC3XX_RNG_FAST (sample_boot false true false healthy_hw).
Proof.
  unfold zero_bound_rejected. intros H.
  assert (Hobs :
    match cc3xx_lowlevel_rng_get_random_uint (P := sample_platform false true false)
            0 0 CC3XX_RNG_FAST (sample_boot false true false healthy_hw) with
    | Ret _ s' | Halt _ s' => seed_draws s' = 0%nat
    | OutOfFuel => False
    end).
  { destruct (cc3xx_lowlevel_rng_get_random_uint 0 0 CC3XX_RNG_FAST _)
      as [[e v] s'|w s'|]; [destruct H as [_ ->]; reflexivity| |contradiction].
    destruct w; try contradiction. rewrite H. reflexivity. }
  vm_compute in Hobs. discriminate.
Qed.

(** C9 does not hold for a length above 256: entry 256 holds 0. *)
Lemma permutation_257_not_identity :
  ~ exists s',
      cc3xx_lowlevel_rng_get_random_permutation (P := sample_platform false false false)
        (repeat 0 257%nat) 257 CC3XX_RNG_FAST (sample_boot false false false healthy_hw)
      = Ret (identity_sequence 257) s'.
Proof.
  intros [s' H].
  apply (f_equal (fun o => match o with Ret l _ => nth 256 l 0 | _ => 0 end)) in H.
  vm_compute in H. discriminate.
Qed.

(** C8 does not hold for a length above 256: the shuffle of the
    identity sequence holds 256 somewhere, the buffer of [uint8_t] does
    not. *)
Lemma shuffle_257_not_of_identity :
  cc3xx_lowlevel_rng_get_random_permutation (P := sample_platform false false true)
    (repeat 0 257%nat) 257 CC3XX_RNG_FAST (sample_boot false false true healthy_hw)
  <> fisher_yates_spec (P := sample_platform false false true)
       (seq 0 257) 257 (identity_sequence 257) CC3XX_RNG_FAST
       (sample_boot false false true healthy_hw).
Proof.
  intros H.
  apply (f_equal (fun o => match o with
                           | Ret l _ => existsb (Z.eqb 256) l
                           | _ => false
                           end)) in H.
  vm_compute in H. discriminate.
Qed.

(** ** Instances *)

Lemma sample_platform_ok halt_on_fatal ndebug dpa :
  platform_ok (P := sample_platform halt_on_fatal ndebug dpa).
Proof. unfold platform_ok. cbn. lia. Qed.

Lemma mock_platform_ok : platform_ok (P := mock_platform).
Proof. unfold platform_ok. cbn. lia. Qed.


Lemma get_random_uint_below_bound_witness : 1 <= 10 /\ 0 <= 8 < 10.
Proof.
  split; [lia|].
  apply (get_random_uint_below_bound (P := sample_platform false false false)
           10 0 CC3XX_RNG_FAST (sample_boot false false false healthy_hw) 8
           (final_state
              (cc3xx_lowlevel_rng_get_random_uint (P := sample_platform false false false)
                 10 0 CC3XX_RNG_FAST (sample_boot false false false healthy_hw))
              (sample_boot false false false healthy_hw)));
    [lia|apply returns_final; vm_compute; reflexivity].
Defined.

Lemma uint_mask_cases_witness :
  0 <= 4 <= 31 /\ uint_mask (2 ^ 4) = 2 ^ 4 - 1.
Proof.
  split; [lia|].
  destruct (uint_mask_cases (P := sample_platform false false false)) as [H _].
  destruct (H 4 ltac:(lia)) as [H1 _]. exact H1.
Defined.

Lemma uint_last_attempt_discarded_witness :
  1 <= 3 < 2 ^ 32 /\
  cc3xx_lowlevel_rng_get_random_uint (P := stuck_platform)
    10 0 CC3XX_RNG_CRYPTOGRAPHICALLY_SECURE stuck_boot
  = Ret (CC3XX_ERR_RNG_TOO_MANY_ATTEMPTS, 0) stuck_after_3.
Proof.
  split; [lia|].
  destruct (uint_last_attempt_discarded (P := stuck_platform)) as [HA _];
    [cbn; lia|].
  apply (HA 10 0 CC3XX_RNG_CRYPTOGRAPHICALLY_SECURE stuck_boot 15 stuck_after_2
            [255; 255; 255; 255] stuck_after_3).
  - discriminate.
  - apply (rejected_more (P := stuck_platform) 10 (uint_mask 10)
             CC3XX_RNG_CRYPTOGRAPHICALLY_SECURE 1 0 stuck_boot
             [255; 255; 255; 255] stuck_after_1 15 stuck_after_2).
    + apply (returns_final (stuck_draw 0 stuck_boot)). vm_compute. reflexivity.
    + vm_compute. discriminate.
    + apply (rejected_more (P := stuck_platform) 10 (uint_mask 10)
               CC3XX_RNG_CRYPTOGRAPHICALLY_SECURE 0 15 stuck_after_1
               [255; 255; 255; 255] stuck_after_2 15 stuck_after_2).
      * apply (returns_final (stuck_draw 15 stuck_after_1)). vm_compute. reflexivity.
      * vm_compute. discriminate.
      * apply rejected_none.
  - apply (returns_final (stuck_draw 15 stuck_after_2)). vm_compute. reflexivity.
Defined.


Lemma zero_bound_assertion_witness :
  cc3xx_lowlevel_rng_get_random_uint (P := sample_platform false false false)
    0 0 CC3XX_RNG_FAST (sample_boot false false false healthy_hw)
  = Halt AssertionFailed (sample_boot false false false healthy_hw).
Proof.
  destruct (zero_bound_assertion (P := sample_platform false false false)
              0 CC3XX_RNG_FAST (sample_boot false false false healthy_hw)) as [H _].
  apply H. reflexivity.
Defined.

Lemma get_random_permutation_identity_witness :
  cc3xx_lowlevel_rng_get_random_permutation (P := sample_platform false false false)
    [9; 9; 9; 9; 9] 5 CC3XX_RNG_FAST (sample_boot false false false healthy_hw)
  = Ret [0; 1; 2; 3; 4] (sample_boot false false false healthy_hw).
Proof.
  destruct (get_random_permutation_identity (P := sample_platform false false false)
              [9; 9; 9; 9; 9] 5 CC3XX_RNG_FAST
              (sample_boot false false false healthy_hw)) as [H _];
    [reflexivity|lia|cbn; lia|].
  exact H.
Defined.

Lemma get_random_permutation_shuffle_witness :
  cc3xx_lowlevel_rng_get_random_permutation (P := mock_platform)
    [9; 9; 9; 9] 4 CC3XX_RNG_FAST mock_boot
  = fisher_yates_spec (P := mock_platform) [0; 1; 2; 3]%nat 4 [0; 1; 2; 3]
      CC3XX_RNG_FAST mock_boot.
Proof.
  destruct (get_random_permutation_shuffle (P := mock_platform)
              [9; 9; 9; 9] 4 CC3XX_RNG_FAST mock_boot) as [H _];
    [reflexivity|lia|cbn; lia|].
  exact H.
Defined.

Lemma lfsr_seeded_at_most_once_witness :
  match run_calls (P := mock_platform)
          [GetRandomUint 10 0 CC3XX_RNG_FAST;
           GetRandom 0 [0; 0; 0; 0; 0; 0; 0; 0] 8 CC3XX_RNG_FAST;
           GetRandomPermutation [0; 0; 0; 0; 0] 5 CC3XX_RNG_FAST;
           GetRandom 1 [0; 0; 0] 3 CC3XX_RNG_CRYPTOGRAPHICALLY_SECURE]
          mock_boot with
  | Ret _ s => seed_draws s = if lfsr_seed_done s then 1%nat else 0%nat
  | Halt _ s => (seed_draws s <= 1)%nat
  | OutOfFuel => False
  end.
Proof.
  apply (lfsr_seeded_at_most_once (P := mock_platform) mock_platform_ok 0).
  repeat constructor; cbn; lia.
Defined.

